(** * DonationCart: the donation-list widget of DonationWagon

    A shallow embedding of the data-synchronisation logic of the
    [DonationCart] React component: the record type [DonationItem], the
    view projections [getItemCount] and [getAllImages], the load
    [fetchDonations], the poll step [checkForRefresh], the delete action
    created by [handleDeleteDonation] and the alert's [onClose].

    React state cells are fields of a record that is passed explicitly;
    every asynchronous function is cut at its [await]: the part before it
    runs when the function is called, the part after it runs when the
    awaited answer arrives. *)

From stdpp Require Import gmap strings list.
From Stdlib Require Import ZArith Lia.

Local Open Scope string_scope.
Local Open Scope Z_scope.
Local Open Scope list_scope.

(** ** Data model (type [DonationItem], lines 18-34) *)

Module Model.

Inductive DonationType := clothes | toys.

Inductive Status := pending | scheduled | completed | cancelled.

(** An element of [clothingItems]: [{type, quantity, images}].  A
    quantity is an integer, as the data model says: the field holds the
    integer of the server's answer, and the JavaScript number read from
    it is the double nearest to that integer ([to_double] below). *)
Record ClothingItem := {
  c_type : string;
  c_quantity : Z;
  c_images : list string;
}.

(** An element of [toyItems]: [{name, quantity, images}]. *)
Record ToyItem := {
  t_name : string;
  t_quantity : Z;
  t_images : list string;
}.

(** The optional fields ([clothingItems?], [toyItems?], [pickupDate?])
    are [None] when the property is absent. *)
Record DonationItem := {
  _id : string;
  donationType : DonationType;
  status : Status;
  createdAt : string;
  clothingItems : option (list ClothingItem);
  toyItems : option (list ToyItem);
  pickupDate : option string;
}.

End Model.

Export Model.

(** ** JavaScript numbers that come from integers *)

Module Number.

(** A number computed from integers by [+]: a finite double, whose value
    is then an integer, an infinity, or NaN.  The two zeros are one
    [Finite 0]: they add and print alike. *)
Inductive JsNum :=
  | Finite (n : Z)
  | PosInfinity
  | NegInfinity
  | NaN.

(** The double nearest to the integer [n], ties to the even significand,
    the range left aside.  An integer below 2^53 in magnitude is a double;
    from there on, the doubles from 2^k to 2^(k+1) are the multiples of
    2^(k-52). *)
Definition round_double (n : Z) : Z :=
  let m := Z.abs n in
  if m <? 2 ^ 53 then n
  else
    let ulp := 2 ^ (Z.log2 m - 52) in
    let below := m / ulp * ulp in
    let rest := m - below in
    let up :=
      (ulp <? 2 * rest) || ((2 * rest =? ulp) && Z.odd (m / ulp)) in
    Z.sgn n * (if up then below + ulp else below).

(** The number that the integer [n] is as a double: the nearest double,
    an infinity when that is 2^1024 or more in magnitude. *)
Definition to_double (n : Z) : JsNum :=
  let r := round_double n in
  if 2 ^ 1024 <=? r then PosInfinity
  else if r <=? - 2 ^ 1024 then NegInfinity
  else Finite r.

(** [a + b]: the exact sum rounded to a double; an infinity absorbs what
    is finite, and opposite infinities give NaN. *)
Definition js_add (a b : JsNum) : JsNum :=
  match a, b with
  | NaN, _ | _, NaN => NaN
  | PosInfinity, NegInfinity | NegInfinity, PosInfinity => NaN
  | PosInfinity, _ | _, PosInfinity => PosInfinity
  | NegInfinity, _ | _, NegInfinity => NegInfinity
  | Finite x, Finite y => to_double (x + y)
  end.

End Number.

Export Number.

(** ** View projection (lines 158-185) *)

Module Projection.

(** [arr.reduce((total, item) => total + item.quantity, 0)] *)
Definition reduce_quantity {A} (quantity : A → Z) (arr : list A) : JsNum :=
  foldl (λ total item, js_add total (to_double (quantity item))) (Finite 0) arr.

(** [getItemCount], lines 158-165.  An array, even an empty one, is a
    truthy value, so [donation.clothingItems] as a condition tests that
    the property is present. *)
Definition getItemCount (donation : DonationItem) : JsNum :=
  match donationType donation, clothingItems donation with
  | clothes, Some clothingItems => reduce_quantity c_quantity clothingItems
  | _, _ =>
      match donationType donation, toyItems donation with
      | toys, Some toyItems => reduce_quantity t_quantity toyItems
      | _, _ => Finite 0
      end
  end.

(** The body of the two [forEach] loops of [getAllImages]: one step
    replaces the accumulator [images] by [[...images, ...item.images]]
    when [item.images.length > 0] ([item.images] is an array by its type,
    hence truthy). *)
Definition push_images {A} (item_images : A → list string)
    (images : list string) (item : A) : list string :=
  if bool_decide (0 < Z.of_nat (length (item_images item)))
  then images ++ item_images item
  else images.

(** [getAllImages], lines 167-185: [let images = []], one of the two
    loops, [return images]. *)
Definition getAllImages (donation : DonationItem) : list string :=
  let images := [] in
  match donationType donation, clothingItems donation with
  | clothes, Some clothingItems =>
      foldl (push_images c_images) images clothingItems
  | _, _ =>
      match donationType donation, toyItems donation with
      | toys, Some toyItems => foldl (push_images t_images) images toyItems
      | _, _ => images
      end
  end.

(** The spec's [items] of a record, as [{quantity, images}] pairs: the
    item list that matches the record's kind, empty when it is absent. *)
Definition items (donation : DonationItem) : list (Z * list string) :=
  match donationType donation with
  | clothes =>
      (λ i, (c_quantity i, c_images i)) <$> default [] (clothingItems donation)
  | toys =>
      (λ i, (t_quantity i, t_images i)) <$> default [] (toyItems donation)
  end.

(** The spec's "sum of the quantities" and "concatenation, in item order,
    of each item's image list". *)
Definition sum_of_quantities (l : list (Z * list string)) : Z :=
  foldr Z.add 0 (l.*1).

Definition concatenated_images (l : list (Z * list string)) : list string :=
  concat (l.*2).

End Projection.

Export Projection.

(** ** JavaScript values and settled promises *)

Module Js.

(** The values an API answer can be.  An array holds donation records, as
    the component's types have it ([response.donations] goes to a
    [useState<DonationItem[]>] cell); an object maps property names to
    values. *)
#[warnings="-register-all"]
Inductive JsValue :=
  | JsUndefined
  | JsNull
  | JsBoolean (b : bool)
  | JsNumber (n : Z)
  | JsString (s : string)
  | JsArray (elements : list DonationItem)
  | JsObject (properties : gmap string JsValue).

(** What a value counts as in a condition ([if (v)], [v && ...], [!v]). *)
Definition truthy (v : JsValue) : bool :=
  match v with
  | JsUndefined | JsNull => false
  | JsBoolean b => b
  | JsNumber n => negb (n =? 0)
  | JsString s => negb (String.eqb s "")
  | JsArray _ | JsObject _ => true
  end.

(** [v.name] on a truthy value: the property of an object, [undefined]
    where there is none.  Both callers read properties behind a
    [response && ...] or [!response || ...] guard, so no property of
    [null] or [undefined] is ever read. *)
Definition prop (v : JsValue) (name : string) : JsValue :=
  match v with
  | JsObject properties => default JsUndefined (properties !! name)
  | _ => JsUndefined
  end.

(** [Array.isArray(v)] *)
Definition isArray (v : JsValue) : bool :=
  match v with
  | JsArray _ => true
  | _ => false
  end.

Definition elements_of (v : JsValue) : list DonationItem :=
  match v with
  | JsArray elements => elements
  | _ => []
  end.

(** What [await p] gives: the value [p] is fulfilled with, or an exception
    when [p] is rejected (the reason is only logged by the component). *)
Inductive Settled (A : Type) :=
  | Fulfilled (a : A)
  | Rejected.

Arguments Fulfilled {A} a.
Arguments Rejected {A}.

End Js.

Export Js.

(** ** Component state and its environment *)

Module State.

(** The async arrow function of lines 202-230, as a closure: it captures
    [donationId] and the [donations] of the render that created it. *)
Inductive Closure :=
  | DeleteClosure (donationId : string) (donations : list DonationItem).

(** The values that reach the [alertCallback] cell or its setter:
    [undefined], a function, or the promise an async function returns. *)
Inductive CallbackValue :=
  | CbUndefined
  | CbFunction (f : Closure)
  | CbPromise.

(** The [useState] cells of [DonationCart], lines 43-49. *)
Record CartState := {
  donations : list DonationItem;
  isLoading : bool;
  error : string;
  alertVisible : bool;
  alertTitle : string;
  alertMessage : string;
  alertCallback : CallbackValue;
}.

(** Lines 43-49: the initial values of the cells. *)
Definition initial : CartState := {|
  donations := [];
  isLoading := true;
  error := "";
  alertVisible := false;
  alertTitle := "";
  alertMessage := "";
  alertCallback := CbUndefined;
|}.

(** A request sent through [api]. *)
Inductive Request :=
  | GET (url : string)
  | DELETE (url : string).

(** An async function suspended at [await api.get(...)] (line 83) or at
    [await api.delete(...)] (line 208), with what its closure holds. *)
Inductive Awaiting :=
  | AwaitGet
  | AwaitDelete (donationId : string) (donations : list DonationItem).

(** The component with its environment: the cells, the AsyncStorage
    key-value store, the suspended calls in the order they were made, and
    the requests sent to the Remote Donation Service so far. *)
Record World := {
  cart : CartState;
  storage : gmap string string;
  awaiting : list Awaiting;
  requests : list Request;
}.

Definition setDonations (v : list DonationItem) (s : CartState) : CartState :=
  {| donations := v; isLoading := isLoading s; error := error s;
     alertVisible := alertVisible s; alertTitle := alertTitle s;
     alertMessage := alertMessage s; alertCallback := alertCallback s |}.

Definition setIsLoading (v : bool) (s : CartState) : CartState :=
  {| donations := donations s; isLoading := v; error := error s;
     alertVisible := alertVisible s; alertTitle := alertTitle s;
     alertMessage := alertMessage s; alertCallback := alertCallback s |}.

Definition setError (v : string) (s : CartState) : CartState :=
  {| donations := donations s; isLoading := isLoading s; error := v;
     alertVisible := alertVisible s; alertTitle := alertTitle s;
     alertMessage := alertMessage s; alertCallback := alertCallback s |}.

Definition setAlertVisible (v : bool) (s : CartState) : CartState :=
  {| donations := donations s; isLoading := isLoading s; error := error s;
     alertVisible := v; alertTitle := alertTitle s;
     alertMessage := alertMessage s; alertCallback := alertCallback s |}.

Definition setAlertTitle (v : string) (s : CartState) : CartState :=
  {| donations := donations s; isLoading := isLoading s; error := error s;
     alertVisible := alertVisible s; alertTitle := v;
     alertMessage := alertMessage s; alertCallback := alertCallback s |}.

Definition setAlertMessage (v : string) (s : CartState) : CartState :=
  {| donations := donations s; isLoading := isLoading s; error := error s;
     alertVisible := alertVisible s; alertTitle := alertTitle s;
     alertMessage := v; alertCallback := alertCallback s |}.

(** Writes the [alertCallback] cell. *)
Definition storeAlertCallback (v : CallbackValue) (s : CartState) : CartState :=
  {| donations := donations s; isLoading := isLoading s; error := error s;
     alertVisible := alertVisible s; alertTitle := alertTitle s;
     alertMessage := alertMessage s; alertCallback := v |}.

Definition on_cart (f : CartState → CartState) (w : World) : World :=
  {| cart := f (cart w); storage := storage w;
     awaiting := awaiting w; requests := requests w |}.

Definition set_storage (m : gmap string string) (w : World) : World :=
  {| cart := cart w; storage := m;
     awaiting := awaiting w; requests := requests w |}.

Definition set_awaiting (l : list Awaiting) (w : World) : World :=
  {| cart := cart w; storage := storage w;
     awaiting := l; requests := requests w |}.

(** [await api.get(url)] or [await api.delete(url)]: the request goes
    out and the caller is suspended until the answer comes. *)
Definition send (r : Request) (a : Awaiting) (w : World) : World :=
  {| cart := cart w; storage := storage w;
     awaiting := awaiting w ++ [a]; requests := requests w ++ [r] |}.

End State.

Export State.

(** ** The component's operations (lines 64-103, 196-231, 327-330) *)

Module Cart.

(** The AsyncStorage key of the invalidation flag. *)
Definition refreshKey : string := "donationCartNeedsRefresh".

(** The only message [setError] is ever given. *)
Definition LoadFailed : string := "Failed to load donations".

(** Whether the two AsyncStorage promises of one [checkForRefresh] call
    are rejected.  A rejection lands in the [catch] of lines 72-74. *)
Record StorageIO := {
  getItem_rejects : bool;
  setItem_rejects : bool;
}.

(** AsyncStorage working as its contract says. *)
Definition reliable : StorageIO :=
  {| getItem_rejects := false; setItem_rejects := false |}.

Section Component.

(** The [userId] prop. *)
Variable userId : string.

(** [fetchDonations] up to its [await], lines 79-83. *)
Definition fetchDonations (w : World) : World :=
  let w := on_cart (setIsLoading true) w in
  let w := on_cart (setError "") w in
  send (GET ("/donations/user/" +:+ userId)) AwaitGet w.

(** [fetchDonations] from the answer of [api.get] on, lines 84-102. *)
Definition fetchDonations_resume (answer : Settled JsValue)
    (s : CartState) : CartState :=
  let s :=
    match answer with
    | Fulfilled response =>
        if truthy response && truthy (prop response "success")
           && isArray (prop response "donations")
        then setDonations (elements_of (prop response "donations")) s
        else
          let s := setDonations [] s in
          if negb (truthy response) || negb (truthy (prop response "success"))
          then setError LoadFailed s
          else s
    | Rejected =>
        let s := setError LoadFailed s in
        setDonations [] s
    end in
  setIsLoading false s.

(** [checkForRefresh], lines 64-75.  [fetchDonations()] is called without
    [await]: it runs to its own [await] and the poll goes on to
    [setItem].  The read and the write of the store are taken as one
    step. *)
Definition checkForRefresh (io : StorageIO) (w : World) : World :=
  if getItem_rejects io then w
  else
    let needsRefresh := storage w !! refreshKey in
    if decide (needsRefresh = Some "true") then
      let w := fetchDonations w in
      if setItem_rejects io then w
      else set_storage (<[refreshKey := "false"]> (storage w)) w
    else w.

(** The delete action up to its [await], lines 203-208. *)
Definition call (f : Closure) (w : World) : World :=
  match f with
  | DeleteClosure donationId donations =>
      let w := on_cart (setIsLoading true) w in
      send (DELETE ("/donation/" +:+ donationId))
           (AwaitDelete donationId donations) w
  end.

(** Lines 211-217: the branch taken when the server acknowledges. *)
Definition delete_succeeded (donationId : string)
    (donations : list DonationItem) (s : CartState) : CartState :=
  let s :=
    setDonations (filter (λ donation, _id donation ≠ donationId) donations) s in
  let s := setAlertTitle "Success" s in
  let s := setAlertMessage "Donation has been deleted successfully." s in
  let s := storeAlertCallback CbUndefined s in
  setAlertVisible true s.

(** Lines 221-226: the [catch] block. *)
Definition delete_caught (s : CartState) : CartState :=
  let s := setAlertTitle "Error" s in
  let s := setAlertMessage "Failed to delete donation. Please try again." s in
  let s := storeAlertCallback CbUndefined s in
  setAlertVisible true s.

(** The delete action from the answer of [api.delete] on, lines 209-229.
    A rejected request and the [throw] of line 219 both reach the
    [catch]. *)
Definition delete_resume (donationId : string) (donations : list DonationItem)
    (answer : Settled JsValue) (s : CartState) : CartState :=
  let s :=
    match answer with
    | Fulfilled response =>
        if truthy response && truthy (prop response "success")
        then delete_succeeded donationId donations s
        else delete_caught s
    | Rejected => delete_caught s
    end in
  setIsLoading false s.

(** The setter of the [alertCallback] cell.  A [useState] setter given a
    function takes it for an updater: React calls it with the previous
    state and stores what it returns.  The function handed over at line
    202 is async, so calling it runs the delete action up to its [await]
    and returns a promise, which is what the cell then holds. *)
Definition setAlertCallback (action : CallbackValue) (w : World) : World :=
  match action with
  | CbFunction f => on_cart (storeAlertCallback CbPromise) (call f w)
  | v => on_cart (storeAlertCallback v) w
  end.

(** [handleDeleteDonation], lines 196-231.  The closure holds the
    [donations] of the current render. *)
Definition handleDeleteDonation (donationId : string) (w : World) : World :=
  let f := DeleteClosure donationId (donations (cart w)) in
  let w := on_cart (setAlertTitle "Confirm Deletion") w in
  let w :=
    on_cart (setAlertMessage "Are you sure you want to delete this donation?") w in
  let w := on_cart (setAlertVisible true) w in
  setAlertCallback (CbFunction f) w.

(** How a handler ends. *)
Inductive Completion :=
  | Returns (w : World)
  | Throws (w : World).

Definition world_of (c : Completion) : World :=
  match c with
  | Returns w | Throws w => w
  end.

(** The alert's [onClose], lines 327-330.  [alertCallback] is the value
    of the cell in the current render; a promise is truthy and is not
    callable, so calling it throws a TypeError. *)
Definition onClose (w : World) : Completion :=
  let alertCallback := alertCallback (cart w) in
  let w := on_cart (setAlertVisible false) w in
  match alertCallback with
  | CbUndefined => Returns w
  | CbFunction f => Returns (call f w)
  | CbPromise => Throws w
  end.

(** The answer to the [k]-th suspended call arrives and the call runs to
    its end. *)
Definition deliver (k : nat) (answer : Settled JsValue) (w : World) : World :=
  match awaiting w !! k with
  | None => w
  | Some a =>
      let w := set_awaiting (delete k (awaiting w)) w in
      match a with
      | AwaitGet => on_cart (fetchDonations_resume answer) w
      | AwaitDelete donationId donations =>
          on_cart (delete_resume donationId donations answer) w
      end
  end.

(** One [load]: [fetchDonations] is called and its answer arrives, with
    nothing in between. *)
Definition load (answer : Settled JsValue) (w : World) : World :=
  deliver (length (awaiting w)) answer (fetchDonations w).

(** One [deleteRecord]: the delete action made over the current
    [donations] is called and its answer arrives, with nothing in
    between. *)
Definition deleteRecord (donationId : string) (answer : Settled JsValue)
    (w : World) : World :=
  let f := DeleteClosure donationId (donations (cart w)) in
  deliver (length (awaiting w)) answer (call f w).

(** What can happen after a poll when nobody writes the flag: another
    poll, or the answer to a suspended call. *)
Inductive Event :=
  | Poll (io : StorageIO)
  | Answer (k : nat) (answer : Settled JsValue).

Definition step (e : Event) (w : World) : World :=
  match e with
  | Poll io => checkForRefresh io w
  | Answer k answer => deliver k answer w
  end.

Definition run (es : list Event) (w : World) : World :=
  foldl (λ w e, step e w) w es.

End Component.

End Cart.

Export Cart.

(** ** The cases the properties distinguish, and sample data *)

Module Cases.

(** The answer carries a truthy [success]: the condition of line 211,
    and the negation of the condition of line 92. *)
Definition success_flag_set (answer : Settled JsValue) : bool :=
  match answer with
  | Fulfilled response => truthy response && truthy (prop response "success")
  | Rejected => false
  end.

(** The answer is well formed: a truthy [success] and an array
    [donations], the condition of line 86. *)
Definition well_formed (answer : Settled JsValue) : bool :=
  match answer with
  | Fulfilled response =>
      truthy response && truthy (prop response "success")
      && isArray (prop response "donations")
  | Rejected => false
  end.

(** The flag of the Invalidation Signal Store. *)
Definition flag (w : World) : option string := storage w !! refreshKey.

Definition record1 : DonationItem := {|
  _id := "1"; donationType := clothes; status := pending;
  createdAt := "2025-03-01T10:00:00.000Z";
  clothingItems :=
    Some [ {| c_type := "shirt"; c_quantity := 2; c_images := ["a.jpg"; "b.jpg"] |};
           {| c_type := "coat"; c_quantity := 1; c_images := ["c.jpg"] |} ];
  toyItems := None; pickupDate := None;
|}.

Definition record2 : DonationItem := {|
  _id := "2"; donationType := toys; status := completed;
  createdAt := "2025-03-02T10:00:00.000Z";
  clothingItems := None;
  toyItems := Some [ {| t_name := "puzzle"; t_quantity := 3; t_images := [] |} ];
  pickupDate := Some "2025-03-09T10:00:00.000Z";
|}.

(** A clothing donation of 2^53 shirts and one coat. *)
Definition record_large : DonationItem := {|
  _id := "3"; donationType := clothes; status := pending;
  createdAt := "2025-03-03T10:00:00.000Z";
  clothingItems :=
    Some [ {| c_type := "shirt"; c_quantity := 2 ^ 53; c_images := [] |};
           {| c_type := "coat"; c_quantity := 1; c_images := [] |} ];
  toyItems := None; pickupDate := None;
|}.

(** A mounted cart showing two records, nothing in flight, flag clean. *)
Definition world0 : World := {|
  cart := {| donations := [record1; record2]; isLoading := false; error := "";
             alertVisible := false; alertTitle := ""; alertMessage := "";
             alertCallback := CbUndefined |};
  storage := {[ refreshKey := "false" ]};
  awaiting := [];
  requests := [];
|}.

(** The same cart after some other screen set the flag. *)
Definition world_dirty : World :=
  set_storage (<[refreshKey := "true"]> (storage world0)) world0.

(** The cart with the confirmation alert open and the delete action for
    record [1] in the cell, as a function. *)
Definition closure1 : Closure := DeleteClosure "1" [record1; record2].

Definition world_confirming : World :=
  on_cart (storeAlertCallback (CbFunction closure1))
    (on_cart (setAlertVisible true) world0).

(** [{success: true, donations: [...]}] *)
Definition response_ok (l : list DonationItem) : JsValue :=
  JsObject {[ "success" := JsBoolean true; "donations" := JsArray l ]}.

(** [{success: true}]: as the answer to a list request, the flag is set
    and the collection is missing; as the answer to a delete request, the
    acknowledgment. *)
Definition response_success_only : JsValue :=
  JsObject {[ "success" := JsBoolean true ]}.

(** [{success: false}] *)
Definition response_failure : JsValue :=
  JsObject {[ "success" := JsBoolean false ]}.

End Cases.

Export Cases.

(** ** What the component shows (lines 105-156, 233-336) *)

Module Display.

(** The strings of the [status] and [donationType] unions. *)
Definition status_string (s : Status) : string :=
  match s with
  | pending => "pending"
  | scheduled => "scheduled"
  | completed => "completed"
  | cancelled => "cancelled"
  end.

Definition donationType_string (t : DonationType) : string :=
  match t with
  | clothes => "clothes"
  | toys => "toys"
  end.

Inductive Glyph := Clock | Calendar | Check | AlertTriangle.

(** A lucide icon element, [<Glyph size={..} color=".." />]. *)
Record Icon := {
  glyph : Glyph;
  icon_size : Z;
  icon_color : string;
}.

(** [getStatusIcon], lines 105-118.  The parameter is a [string]. *)
Definition getStatusIcon (status : string) : Icon :=
  if String.eqb status "pending" then
    {| glyph := Clock; icon_size := 16; icon_color := "#F59E0B" |}
  else if String.eqb status "scheduled" then
    {| glyph := Calendar; icon_size := 16; icon_color := "#3B82F6" |}
  else if String.eqb status "completed" then
    {| glyph := Check; icon_size := 16; icon_color := "#10B981" |}
  else if String.eqb status "cancelled" then
    {| glyph := AlertTriangle; icon_size := 16; icon_color := "#EF4444" |}
  else
    {| glyph := Clock; icon_size := 16; icon_color := "#F59E0B" |}.

(** [getStatusText], lines 120-133. *)
Definition getStatusText (status : string) : string :=
  if String.eqb status "pending" then "Pending"
  else if String.eqb status "scheduled" then "Scheduled"
  else if String.eqb status "completed" then "Completed"
  else if String.eqb status "cancelled" then "Cancelled"
  else "Pending".

(** [getStatusColor], lines 135-148. *)
Definition getStatusColor (status : string) : string :=
  if String.eqb status "pending" then "#FEF3C7"
  else if String.eqb status "scheduled" then "#DBEAFE"
  else if String.eqb status "completed" then "#D1FAE5"
  else if String.eqb status "cancelled" then "#FEE2E2"
  else "#FEF3C7".

(** What [getDonationTypeIcon] returns: the shopping bag icon, or the
    view holding the teddy bear emoji. *)
Inductive TypeIcon :=
  | ShoppingBag (bag_size : Z) (bag_color : string)
  | TeddyBear.

(** [getDonationTypeIcon], lines 150-156. *)
Definition getDonationTypeIcon (type : string) : TypeIcon :=
  if String.eqb type "clothes" then ShoppingBag 20 "#BE3E28" else TeddyBear.

(** What [renderDonationItem] puts on one card. *)
Record ItemView := {
  badgeColor : string;
  badgeIcon : Icon;
  badgeText : string;
  deleteDisabled : bool;
  deleteTarget : string;
  typeIcon : TypeIcon;
  typeLabel : string;
  itemCount : JsNum;
  statusText : string;
  previewImage : option string;
}.

(** [renderDonationItem], lines 233-291.  [isLoading] is the cell of the
    current render; the delete button calls
    [handleDeleteDonation(item._id)]; the preview is [allImages[0]] and is
    there only when [allImages.length > 0]. *)
Definition renderDonationItem (isLoading : bool) (item : DonationItem) : ItemView :=
  let itemCount := getItemCount item in
  let allImages := getAllImages item in
  {| badgeColor := getStatusColor (status_string (status item));
     badgeIcon := getStatusIcon (status_string (status item));
     badgeText := getStatusText (status_string (status item));
     deleteDisabled := isLoading;
     deleteTarget := _id item;
     typeIcon := getDonationTypeIcon (donationType_string (donationType item));
     typeLabel :=
       if String.eqb (donationType_string (donationType item)) "clothes"
       then "Clothes" else "Toys";
     itemCount := itemCount;
     statusText := getStatusText (status_string (status item));
     previewImage :=
       if bool_decide (0 < Z.of_nat (length allImages))
       then allImages !! 0%nat else None |}.

(** The four things the container shows, lines 295-321. *)
Inductive Screen :=
  | LoadingView
  | ErrorView (errorText : string)
  | EmptyView
  | ListView (data : list ItemView).

(** Lines 295-321: [isLoading ? ... : error ? ... :
    donations.length === 0 ? ... : <FlatList .../>].  A string is truthy
    when it is not empty. *)
Definition screen (s : CartState) : Screen :=
  if isLoading s then LoadingView
  else if negb (String.eqb (error s) "") then ErrorView (error s)
  else if bool_decide (length (donations s) = 0%nat) then EmptyView
  else ListView (renderDonationItem (isLoading s) <$> donations s).

(** What the [alertCallback] cell counts as in a condition. *)
Definition callback_truthy (c : CallbackValue) : bool :=
  match c with
  | CbUndefined => false
  | CbFunction _ | CbPromise => true
  end.

(** The props given to [CustomAlertMessage], lines 323-334, [onClose]
    apart. *)
Record AlertProps := {
  visible : bool;
  title : string;
  message : string;
  confirmText : string;
  showCancelButton : bool;
  cancelText : string;
}.

Definition alertProps (s : CartState) : AlertProps :=
  {| visible := alertVisible s;
     title := alertTitle s;
     message := alertMessage s;
     confirmText := if callback_truthy (alertCallback s) then "Yes, Delete" else "OK";
     showCancelButton := negb (negb (callback_truthy (alertCallback s)));
     cancelText := "Cancel" |}.

End Display.

Export Display.

(** ** Mounting and a session of the component *)

Module Session.

(** The effect of lines 51-61: with a truthy [userId], one
    [fetchDonations()] and an interval calling [checkForRefresh] every
    500 ms; the result tells the period of the interval that now runs. *)
Definition mount (userId : string) (w : World) : World * option Z :=
  if negb (String.eqb userId "")
  then (fetchDonations userId w, Some 500)
  else (w, None).

(** The component before its first effect runs: the initial cells,
    nothing in flight, nothing sent, and whatever the store holds. *)
Definition fresh (store : gmap string string) : World :=
  {| cart := initial; storage := store; awaiting := []; requests := [] |}.

(** What can happen to a mounted cart: a poll or an answer, a press on
    Retry (line 303, [fetchDonations]), a press on the trash button of a
    card (line 247), the alert calling [onClose]. *)
Inductive Interaction :=
  | Environment (e : Event)
  | PressRetry
  | PressDelete (donationId : string)
  | CloseAlert.

Definition interact (userId : string) (i : Interaction) (w : World) : World :=
  match i with
  | Environment e => step userId e w
  | PressRetry => fetchDonations userId w
  | PressDelete donationId => handleDeleteDonation donationId w
  | CloseAlert => world_of (onClose w)
  end.

Definition session (userId : string) (steps : list Interaction)
    (w : World) : World :=
  foldl (λ w i, interact userId i w) w steps.

(** What a suspended call does to the cells when its answer arrives:
    the two branches of [deliver]. *)
Definition resume (a : Awaiting) (answer : Settled JsValue)
    (s : CartState) : CartState :=
  match a with
  | AwaitGet => fetchDonations_resume answer s
  | AwaitDelete donationId donations =>
      delete_resume donationId donations answer s
  end.

(** The interaction is the arrival of an answer. *)
Definition is_answer (i : Interaction) : bool :=
  match i with
  | Environment (Answer _ _) => true
  | _ => false
  end.

(** The interaction is a poll, an answer or a press on Retry: it has to
    do with loads at most. *)
Definition about_loads (i : Interaction) : bool :=
  match i with
  | Environment _ | PressRetry => true
  | PressDelete _ | CloseAlert => false
  end.

(** A poll in which [setItem] is rejected. *)
Definition setItem_fails : StorageIO :=
  {| getItem_rejects := false; setItem_rejects := true |}.

End Session.

Export Session.

(** * Properties *)

(** ** View projection *)

(** Up to 2^53 every natural number is a double. *)
Lemma to_double_exact (n : Z) : 0 ≤ n ≤ 2 ^ 53 → to_double n = Finite n.
Proof.
  intros [Hlow Hhigh]. unfold to_double, round_double.
  destruct (Z.ltb_spec (Z.abs n) (2 ^ 53)) as [Hsmall|Hlarge].
  - assert (2 ^ 53 < 2 ^ 1024) as Hrange by (by apply Z.pow_lt_mono_r).
    rewrite (proj2 (Z.leb_gt _ _)) by lia.
    by rewrite (proj2 (Z.leb_gt _ _)) by lia.
  - assert (n = 2 ^ 53) as -> by lia. reflexivity.
Qed.

Lemma sum_nonnegative (qs : list Z) :
  Forall (λ q, 0 ≤ q) qs → 0 ≤ foldr Z.add 0 qs.
Proof. induction 1 as [|q qs Hq Hqs IH]; simpl; lia. Qed.

Section ProjectionFacts.

Context {A : Type} (quantity : A → Z) (item_images : A → list string).

(** While the running total stays within 2^53, each addition of the
    [reduce] is exact. *)
Lemma reduce_from (total : Z) (arr : list A) :
  0 ≤ total →
  Forall (λ q, 0 ≤ q) (quantity <$> arr) →
  total + foldr Z.add 0 (quantity <$> arr) ≤ 2 ^ 53 →
  foldl (λ total item, js_add total (to_double (quantity item)))
    (Finite total) arr
  = Finite (total + foldr Z.add 0 (quantity <$> arr)).
Proof.
  revert total. induction arr as [|item arr IH]; intros total Htotal; csimpl.
  - intros _ _. f_equal. lia.
  - intros [Hitem Harr]%Forall_cons Hbound.
    pose proof (sum_nonnegative _ Harr) as Hrest.
    rewrite (to_double_exact (quantity item)) by lia. simpl.
    rewrite (to_double_exact (total + quantity item)) by lia.
    rewrite IH by (done || lia). f_equal. lia.
Qed.

Lemma reduce_quantity_sum (arr : list A) :
  Forall (λ q, 0 ≤ q) (quantity <$> arr) →
  foldr Z.add 0 (quantity <$> arr) ≤ 2 ^ 53 →
  reduce_quantity quantity arr = Finite (foldr Z.add 0 (quantity <$> arr)).
Proof.
  intros Hquantities Hbound. unfold reduce_quantity.
  by rewrite reduce_from by (done || lia).
Qed.

Lemma push_images_app (images : list string) (item : A) :
  push_images item_images images item = images ++ item_images item.
Proof.
  unfold push_images. case_bool_decide as Hlen; [done|].
  destruct (item_images item); simpl in *; [by rewrite app_nil_r | lia].
Qed.

Lemma forEach_images (images : list string) (arr : list A) :
  foldl (push_images item_images) images arr
  = images ++ concat (item_images <$> arr).
Proof.
  revert images. induction arr as [|item arr IH]; intros images; csimpl.
  - by rewrite app_nil_r.
  - by rewrite IH, push_images_app, <-app_assoc.
Qed.

Lemma pairs_fst (arr : list A) :
  ((λ i, (quantity i, item_images i)) <$> arr).*1 = quantity <$> arr.
Proof. by rewrite <-list_fmap_compose. Qed.

Lemma pairs_snd (arr : list A) :
  ((λ i, (quantity i, item_images i)) <$> arr).*2 = item_images <$> arr.
Proof. by rewrite <-list_fmap_compose. Qed.

End ProjectionFacts.

Lemma getItemCount_items (donation : DonationItem) :
  Forall (λ q, 0 ≤ q) (items donation).*1 →
  sum_of_quantities (items donation) ≤ 2 ^ 53 →
  getItemCount donation = Finite (sum_of_quantities (items donation)).
Proof.
  unfold getItemCount, sum_of_quantities, items.
  destruct (donationType donation), (clothingItems donation) as [ci|],
    (toyItems donation) as [ti|]; simpl; try done;
    rewrite pairs_fst; intros; by rewrite reduce_quantity_sum.
Qed.

Lemma getAllImages_items (donation : DonationItem) :
  getAllImages donation = concatenated_images (items donation).
Proof.
  unfold getAllImages, concatenated_images, items.
  destruct (donationType donation), (clothingItems donation) as [ci|],
    (toyItems donation) as [ti|]; simpl;
    by rewrite ?pairs_snd, ?forEach_images.
Qed.

Lemma concat_nil_Forall {B} (ls : list (list B)) :
  concat ls = [] ↔ Forall (λ l, l = []) ls.
Proof.
  induction ls as [|l ls IH]; simpl.
  - split; [constructor | done].
  - split.
    + intros [-> Hls]%app_eq_nil. constructor; [done | by apply IH].
    + intros Hall. inversion Hall as [|? ? -> Hls]; subst. simpl. by apply IH.
Qed.

(** C7.  The image list of a record is the concatenation, in item order,
    of the image lists of its items, with nothing removed: items
    [[{images:[a,b]}, {images:[c]}]] give [[a,b,c]] for either kind of
    record, also when [a], [b], [c] repeat; and the list is empty exactly
    when no item has an image. *)
Theorem getAllImages_concatenates (donation : DonationItem) :
  getAllImages donation = concatenated_images (items donation)
  ∧ (getAllImages donation = [] ↔ Forall (λ i, i.2 = []) (items donation))
  ∧ (∀ id st created other pickup ty1 q1 ty2 q2 a b c,
        getAllImages
          {| _id := id; donationType := clothes; status := st;
             createdAt := created;
             clothingItems :=
               Some [ {| c_type := ty1; c_quantity := q1; c_images := [a; b] |};
                      {| c_type := ty2; c_quantity := q2; c_images := [c] |} ];
             toyItems := other; pickupDate := pickup |} = [a; b; c])
  ∧ (∀ id st created other pickup n1 q1 n2 q2 a b c,
        getAllImages
          {| _id := id; donationType := toys; status := st;
             createdAt := created; clothingItems := other;
             toyItems :=
               Some [ {| t_name := n1; t_quantity := q1; t_images := [a; b] |};
                      {| t_name := n2; t_quantity := q2; t_images := [c] |} ];
             pickupDate := pickup |} = [a; b; c]).
Proof.
  split; [apply getAllImages_items|].
  split.
  - rewrite getAllImages_items. unfold concatenated_images.
    rewrite concat_nil_Forall, Forall_fmap. done.
  - split; intros; rewrite getAllImages_items; reflexivity.
Qed.

(** C8, as the code has it.  When the quantities of the items are not
    negative and their sum is at most 2^53, the item count of a record
    is the sum of the quantities of its items.  The count is a function
    of the record alone, so any number of calls on the same record all
    give the same number; and it is 0 when the item list is empty. *)
Theorem getItemCount_sum (donation : DonationItem) :
  Forall (λ i, 0 ≤ i.1) (items donation) →
  sum_of_quantities (items donation) ≤ 2 ^ 53 →
  getItemCount donation = Finite (sum_of_quantities (items donation))
  ∧ (∀ calls : nat,
        (λ _, getItemCount donation) <$> seq 0 calls
        = replicate calls (Finite (sum_of_quantities (items donation))))
  ∧ (∀ id st created other pickup,
        getItemCount
          {| _id := id; donationType := clothes; status := st;
             createdAt := created; clothingItems := Some [];
             toyItems := other; pickupDate := pickup |} = Finite 0)
  ∧ (∀ id st created other pickup,
        getItemCount
          {| _id := id; donationType := toys; status := st;
             createdAt := created; clothingItems := other;
             toyItems := Some []; pickupDate := pickup |} = Finite 0).
Proof.
  intros Hquantities Hbound.
  assert (getItemCount donation = Finite (sum_of_quantities (items donation)))
    as Hsum.
  { apply getItemCount_items; [|done]. by apply Forall_fmap. }
  split; [done|]. split.
  - intros calls. rewrite <-Hsum.
    generalize 0%nat. induction calls as [|calls IH]; intros start; csimpl.
    + done.
    + by rewrite IH.
  - split; intros; reflexivity.
Qed.

Lemma getItemCount_sum_witness :
  getItemCount record1 = Finite 3
  ∧ (∀ calls : nat,
        (λ _, getItemCount record1) <$> seq 0 calls
        = replicate calls (Finite 3))
  ∧ (∀ id st created other pickup,
        getItemCount
          {| _id := id; donationType := clothes; status := st;
             createdAt := created; clothingItems := Some [];
             toyItems := other; pickupDate := pickup |} = Finite 0)
  ∧ (∀ id st created other pickup,
        getItemCount
          {| _id := id; donationType := toys; status := st;
             createdAt := created; clothingItems := other;
             toyItems := Some []; pickupDate := pickup |} = Finite 0).
Proof.
  apply (getItemCount_sum record1).
  - repeat constructor; simpl; lia.
  - vm_compute. discriminate.
Defined.

(** C8 as stated fails above 2^53: for 2^53 shirts and one coat the
    additions of line 160 give 9007199254740992, one less than the sum
    of the quantities. *)
Lemma getItemCount_rounds_large_sum :
  getItemCount record_large = Finite 9007199254740992
  ∧ sum_of_quantities (items record_large) = 9007199254740993
  ∧ getItemCount record_large
    ≠ Finite (sum_of_quantities (items record_large)).
Proof. repeat split. vm_compute. discriminate. Qed.

(** C9.  Both projections are computed from the item list of the
    record's own kind, taken as empty when it is absent, and from
    nothing else: the count of a clothing donation is the [reduce] over
    its clothing items and its images are theirs in order, the same for
    a toy donation and its toy items, so the count is the sum of those
    quantities as long as they are not negative and sum to at most 2^53.
    Replacing the other list changes neither result, and when the list
    of the record's kind is absent or empty the count is 0 and the image
    list is empty, whatever the other list holds.  Both are total
    functions of the record. *)
Theorem projections_read_matching_list id st created pickup
    (ci : option (list ClothingItem)) (ti : option (list ToyItem)) :
  let record ty ci ti :=
    {| _id := id; donationType := ty; status := st; createdAt := created;
       clothingItems := ci; toyItems := ti; pickupDate := pickup |} in
  getItemCount (record clothes ci ti) = reduce_quantity c_quantity (default [] ci)
  ∧ getAllImages (record clothes ci ti) = concat (c_images <$> default [] ci)
  ∧ getItemCount (record toys ci ti) = reduce_quantity t_quantity (default [] ti)
  ∧ getAllImages (record toys ci ti) = concat (t_images <$> default [] ti)
  ∧ (Forall (λ q, 0 ≤ q) (c_quantity <$> default [] ci) →
     foldr Z.add 0 (c_quantity <$> default [] ci) ≤ 2 ^ 53 →
     getItemCount (record clothes ci ti)
     = Finite (foldr Z.add 0 (c_quantity <$> default [] ci)))
  ∧ (Forall (λ q, 0 ≤ q) (t_quantity <$> default [] ti) →
     foldr Z.add 0 (t_quantity <$> default [] ti) ≤ 2 ^ 53 →
     getItemCount (record toys ci ti)
     = Finite (foldr Z.add 0 (t_quantity <$> default [] ti)))
  ∧ (∀ ti', getItemCount (record clothes ci ti') = getItemCount (record clothes ci ti)
            ∧ getAllImages (record clothes ci ti') = getAllImages (record clothes ci ti))
  ∧ (∀ ci', getItemCount (record toys ci' ti) = getItemCount (record toys ci ti)
            ∧ getAllImages (record toys ci' ti) = getAllImages (record toys ci ti))
  ∧ getItemCount (record clothes None ti) = Finite 0
  ∧ getAllImages (record clothes None ti) = []
  ∧ getItemCount (record toys ci None) = Finite 0
  ∧ getAllImages (record toys ci None) = []
  ∧ getItemCount (record clothes (Some []) ti) = Finite 0
  ∧ getAllImages (record clothes (Some []) ti) = []
  ∧ getItemCount (record toys ci (Some [])) = Finite 0
  ∧ getAllImages (record toys ci (Some [])) = [].
Proof.
  intros record.
  assert (getItemCount (record clothes ci ti)
          = reduce_quantity c_quantity (default [] ci)) as Hclothes.
  { unfold getItemCount; simpl. by destruct ci. }
  assert (getItemCount (record toys ci ti)
          = reduce_quantity t_quantity (default [] ti)) as Htoys.
  { unfold getItemCount; simpl. by destruct ci, ti. }
  split; [done|].
  split.
  { unfold getAllImages; simpl. destruct ci as [l|]; simpl; [|done].
    by rewrite forEach_images. }
  split; [done|].
  split.
  { unfold getAllImages; simpl.
    destruct ci as [cl|], ti as [tl|]; simpl; try done;
      by rewrite forEach_images. }
  split.
  { intros Hquantities Hbound. rewrite Hclothes.
    by apply reduce_quantity_sum. }
  split.
  { intros Hquantities Hbound. rewrite Htoys.
    by apply reduce_quantity_sum. }
  unfold getItemCount, getAllImages. simpl.
  split; [intros ti'; split; reflexivity|].
  split; [intros ci'; split; reflexivity|].
  repeat split; reflexivity.
Qed.

(** ** Load *)

Lemma deliver_sent (r : Request) (a : Awaiting) (answer : Settled JsValue)
    (w : World) :
  deliver (length (awaiting w)) answer (send r a w)
  = {| cart :=
         match a with
         | AwaitGet => fetchDonations_resume answer (cart w)
         | AwaitDelete donationId donations =>
             delete_resume donationId donations answer (cart w)
         end;
       storage := storage w;
       awaiting := awaiting w;
       requests := requests w ++ [r] |}.
Proof.
  unfold deliver, send; simpl.
  rewrite list_lookup_middle by done.
  rewrite delete_middle, app_nil_r. by destruct a.
Qed.

Lemma load_unfold (userId : string) (answer : Settled JsValue) (w : World) :
  load userId answer w
  = {| cart :=
         fetchDonations_resume answer
           (setError "" (setIsLoading true (cart w)));
       storage := storage w;
       awaiting := awaiting w;
       requests := requests w ++ [GET ("/donations/user/" +:+ userId)] |}.
Proof.
  unfold load, fetchDonations.
  change (awaiting w)
    with (awaiting (on_cart (setError "") (on_cart (setIsLoading true) w))) at 1.
  by rewrite deliver_sent.
Qed.

(** What the answer's continuation writes to [donations] does not depend
    on the cells it finds. *)
Lemma fetchDonations_resume_donations (answer : Settled JsValue) (s : CartState) :
  donations (fetchDonations_resume answer s)
  = match answer with
    | Fulfilled response =>
        if well_formed answer then elements_of (prop response "donations") else []
    | Rejected => []
    end.
Proof.
  unfold fetchDonations_resume, well_formed.
  destruct answer as [response|]; [|done].
  destruct (truthy response), (truthy (prop response "success")),
    (isArray (prop response "donations")); done.
Qed.

(** C6.  A load answered by a response that is truthy, has a truthy
    [success] and an array [donations] leaves in [donations] exactly that
    array, element for element and in the same order, with [error]
    empty and [isLoading] false. *)
Theorem load_replaces_records (userId : string) (w : World)
    (response : JsValue) (l : list DonationItem) :
  truthy response = true →
  truthy (prop response "success") = true →
  prop response "donations" = JsArray l →
  let w' := load userId (Fulfilled response) w in
  donations (cart w') = l ∧ error (cart w') = "" ∧ isLoading (cart w') = false.
Proof.
  intros Hresponse Hsuccess Hdonations w'. subst w'.
  rewrite load_unfold. unfold fetchDonations_resume.
  rewrite Hresponse, Hsuccess, Hdonations. done.
Qed.

Lemma load_replaces_records_witness :
  donations
    (cart (load "u1" (Fulfilled (response_ok [record2; record1; record1])) world0))
  = [record2; record1; record1]
  ∧ error
      (cart (load "u1" (Fulfilled (response_ok [record2; record1; record1])) world0))
    = ""
  ∧ isLoading
      (cart (load "u1" (Fulfilled (response_ok [record2; record1; record1])) world0))
    = false.
Proof.
  apply (load_replaces_records "u1" world0
           (response_ok [record2; record1; record1])
           [record2; record1; record1]); reflexivity.
Defined.

(** C1, as the code has it.  A load whose answer is not well formed (the
    request is rejected, the response is falsy, [success] is falsy, or
    [donations] is missing or not an array) empties [donations] whatever
    they held and clears [isLoading]; [error] becomes
    ['Failed to load donations'] unless the response carries a truthy
    [success], in which case it stays empty. *)
Theorem load_failure_clears_records (userId : string) (w : World)
    (answer : Settled JsValue) :
  well_formed answer = false →
  let w' := load userId answer w in
  donations (cart w') = []
  ∧ isLoading (cart w') = false
  ∧ error (cart w') = (if success_flag_set answer then "" else LoadFailed).
Proof.
  intros Hmalformed w'. subst w'. rewrite load_unfold.
  unfold fetchDonations_resume, well_formed, success_flag_set in *.
  destruct answer as [response|]; [|done].
  destruct (truthy response), (truthy (prop response "success")),
    (isArray (prop response "donations")); done.
Qed.

Lemma load_failure_clears_records_witness :
  donations (cart (load "u1" (Fulfilled response_failure) world0)) = []
  ∧ isLoading (cart (load "u1" (Fulfilled response_failure) world0)) = false
  ∧ error (cart (load "u1" (Fulfilled response_failure) world0)) = LoadFailed.
Proof.
  apply (load_failure_clears_records "u1" world0 (Fulfilled response_failure)).
  reflexivity.
Defined.

(** C1 as stated fails: the answer [{success: true}] has no collection,
    the load empties the cache of two records, and [error] is left empty
    instead of ['Failed to load donations']. *)
Lemma load_missing_collection_sets_no_error :
  well_formed (Fulfilled response_success_only) = false
  ∧ donations (cart world0) = [record1; record2]
  ∧ donations (cart (load "u1" (Fulfilled response_success_only) world0)) = []
  ∧ error (cart (load "u1" (Fulfilled response_success_only) world0)) = ""
  ∧ error (cart (load "u1" (Fulfilled response_success_only) world0))
    ≠ LoadFailed.
Proof. repeat split; try reflexivity. vm_compute. discriminate. Qed.

(** ** Delete *)

Lemma deleteRecord_unfold (donationId : string) (answer : Settled JsValue)
    (w : World) :
  deleteRecord donationId answer w
  = {| cart :=
         delete_resume donationId (donations (cart w)) answer
           (setIsLoading true (cart w));
       storage := storage w;
       awaiting := awaiting w;
       requests := requests w ++ [DELETE ("/donation/" +:+ donationId)] |}.
Proof.
  unfold deleteRecord, call.
  change (awaiting w) with (awaiting (on_cart (setIsLoading true) w)) at 1.
  by rewrite deliver_sent.
Qed.

(** An acknowledged delete leaves the records whose [_id] differs. *)
Lemma deleteRecord_filter (donationId : string) (answer : Settled JsValue)
    (w : World) :
  success_flag_set answer = true →
  donations (cart (deleteRecord donationId answer w))
  = filter (λ donation, _id donation ≠ donationId) (donations (cart w)).
Proof.
  intros Hack. rewrite deleteRecord_unfold.
  unfold delete_resume, success_flag_set in *.
  destruct answer as [response|]; [|done].
  by rewrite Hack.
Qed.

(** The acknowledged delete writes the list its closure captured,
    filtered, whatever [donations] hold when the answer arrives. *)
Lemma delete_resume_uses_captured (donationId : string)
    (captured : list DonationItem) (answer : Settled JsValue) (s : CartState) :
  success_flag_set answer = true →
  donations (delete_resume donationId captured answer s)
  = filter (λ donation, _id donation ≠ donationId) captured.
Proof.
  unfold delete_resume, success_flag_set.
  destruct answer as [response|]; [|done].
  by intros ->.
Qed.

Lemma filter_keeps_all {A} (P : A → Prop) `{!∀ x, Decision (P x)} (l : list A) :
  Forall P l → filter P l = l.
Proof.
  induction 1 as [|x l Hx Hl IH]; [done|].
  by rewrite filter_cons_True, IH.
Qed.

Lemma filter_unique_id (before after : list DonationItem) (r : DonationItem) :
  NoDup (_id <$> (before ++ r :: after)) →
  filter (λ donation, _id donation ≠ _id r) (before ++ r :: after)
  = before ++ after.
Proof.
  rewrite fmap_app, fmap_cons.
  intros (Hbefore & Hdisjoint & [Hr Hafter]%NoDup_cons)%NoDup_app.
  rewrite filter_app, filter_cons_False by (intros Hne; by apply Hne).
  f_equal; apply filter_keeps_all, Forall_forall; intros x Hx Heq.
  - apply (Hdisjoint (_id x)); [by apply list_elem_of_fmap_2|].
    rewrite Heq. left.
  - apply Hr. rewrite <-Heq. by apply list_elem_of_fmap_2.
Qed.

(** C2.  When the records have pairwise different [_id]s, as the data
    model says, and one of them has the [_id] given, a delete that the
    server acknowledges removes that record and no other: the records
    before it and after it stay, unchanged and in their order. *)
Theorem deleteRecord_removes_one (donationId : string)
    (answer : Settled JsValue) (w : World) :
  success_flag_set answer = true →
  NoDup (_id <$> donations (cart w)) →
  donationId ∈ _id <$> donations (cart w) →
  ∃ before r after,
    donations (cart w) = before ++ r :: after
    ∧ _id r = donationId
    ∧ donations (cart (deleteRecord donationId answer w)) = before ++ after.
Proof.
  intros Hack Hunique (r & -> & Hr)%list_elem_of_fmap.
  destruct (list_elem_of_split _ _ Hr) as (before & after & Hsplit).
  exists before, r, after. split; [done|]. split; [done|].
  rewrite deleteRecord_filter by done.
  rewrite Hsplit in *. by apply filter_unique_id.
Qed.

Lemma deleteRecord_removes_one_witness :
  ∃ before r after,
    donations (cart world0) = before ++ r :: after
    ∧ _id r = "1"
    ∧ donations (cart (deleteRecord "1" (Fulfilled response_success_only) world0))
      = before ++ after.
Proof.
  apply (deleteRecord_removes_one "1" (Fulfilled response_success_only) world0).
  - reflexivity.
  - compute_done.
  - compute_done.
Defined.

(** The scenario of the spec: records [1] (pending) and [2] (completed),
    [deleteRecord("1")] acknowledged, record [2] is what is left. *)
Example deleteRecord_scenario :
  donations (cart (deleteRecord "1" (Fulfilled response_success_only) world0))
  = [record2].
Proof. reflexivity. Qed.

(** C3, as the code has it.  A delete that the server does not
    acknowledge (the request is rejected, the response is falsy, or
    [success] is falsy) leaves [donations] exactly as they were and
    [error] as it was; [isLoading] is cleared and the failure is shown
    through the alert: title ['Error'], the failure message, no callback,
    visible. *)
Theorem deleteRecord_failure_keeps_records (donationId : string)
    (answer : Settled JsValue) (w : World) :
  success_flag_set answer = false →
  let w' := deleteRecord donationId answer w in
  donations (cart w') = donations (cart w)
  ∧ error (cart w') = error (cart w)
  ∧ isLoading (cart w') = false
  ∧ alertVisible (cart w') = true
  ∧ alertTitle (cart w') = "Error"
  ∧ alertMessage (cart w') = "Failed to delete donation. Please try again."
  ∧ alertCallback (cart w') = CbUndefined.
Proof.
  intros Hfailed w'. subst w'. rewrite deleteRecord_unfold.
  unfold delete_resume, success_flag_set in *.
  destruct answer as [response|]; [|done].
  by rewrite Hfailed.
Qed.

Lemma deleteRecord_failure_keeps_records_witness :
  donations (cart (deleteRecord "1" Rejected world0)) = [record1; record2]
  ∧ error (cart (deleteRecord "1" Rejected world0)) = ""
  ∧ isLoading (cart (deleteRecord "1" Rejected world0)) = false
  ∧ alertVisible (cart (deleteRecord "1" Rejected world0)) = true
  ∧ alertTitle (cart (deleteRecord "1" Rejected world0)) = "Error"
  ∧ alertMessage (cart (deleteRecord "1" Rejected world0))
    = "Failed to delete donation. Please try again."
  ∧ alertCallback (cart (deleteRecord "1" Rejected world0)) = CbUndefined.
Proof.
  apply (deleteRecord_failure_keeps_records "1" Rejected world0).
  reflexivity.
Defined.

(** C3 as stated fails: after a delete answered [{success: false}], and
    after one whose request is rejected, [error] is the empty string it
    was before: no error value is recorded, and the retry view that a
    non-empty [error] selects is not shown. *)
Lemma deleteRecord_failure_sets_no_error :
  success_flag_set (Fulfilled response_failure) = false
  ∧ donations (cart (deleteRecord "1" (Fulfilled response_failure) world0))
    = donations (cart world0)
  ∧ error (cart (deleteRecord "1" (Fulfilled response_failure) world0)) = ""
  ∧ error (cart (deleteRecord "1" Rejected world0)) = "".
Proof. repeat split. Qed.

(** ** Confirmation workflow *)

Lemma on_cart_id (f : CartState → CartState) (w : World) :
  f (cart w) = cart w → on_cart f w = w.
Proof. destruct w as [s m a r]; unfold on_cart; simpl. by intros ->. Qed.

Lemma setAlertVisible_same (s : CartState) :
  setAlertVisible (alertVisible s) s = s.
Proof. by destruct s. Qed.

(** C4.  What the code does where the claim speaks.  When a delete is
    asked for ([handleDeleteDonation], the only request with an action),
    the setter of line 202 calls the action it is given: the delete
    request goes out with the request for confirmation, and the cell
    holds a promise.  The one resolve ([onClose]) hides the alert and
    then throws, a promise not being callable: no action is invoked as
    part of the resolution, nothing more is sent, and the title, the
    message and the cell are left as the request set them.  The last
    part of the claim holds: with nothing in the cell, the resolve of a
    hidden alert returns and changes nothing. *)
Theorem resolve_after_request_throws (donationId : string) (w : World) :
  let requested := handleDeleteDonation donationId w in
  let hidden := on_cart (setAlertVisible false) requested in
  requests requested = requests w ++ [DELETE ("/donation/" +:+ donationId)]
  ∧ awaiting requested
    = awaiting w ++ [AwaitDelete donationId (donations (cart w))]
  ∧ isLoading (cart requested) = true
  ∧ alertVisible (cart requested) = true
  ∧ alertCallback (cart requested) = CbPromise
  ∧ onClose requested = Throws hidden
  ∧ requests hidden = requests requested
  ∧ awaiting hidden = awaiting requested
  ∧ alertVisible (cart hidden) = false
  ∧ alertTitle (cart hidden) = "Confirm Deletion"
  ∧ alertMessage (cart hidden)
    = "Are you sure you want to delete this donation?"
  ∧ alertCallback (cart hidden) = CbPromise
  ∧ (∀ idle : World,
       alertCallback (cart idle) = CbUndefined →
       alertVisible (cart idle) = false →
       onClose idle = Returns idle).
Proof.
  intros requested hidden. subst requested hidden.
  do 12 (split; [reflexivity|]).
  intros idle Hcell Hhidden. unfold onClose. rewrite Hcell.
  f_equal. apply on_cart_id.
  rewrite <-Hhidden. apply setAlertVisible_same.
Qed.

(** ** Poll *)

Section Poll.

Variable userId : string.

Lemma checkForRefresh_clean (io : StorageIO) (w : World) :
  flag w ≠ Some "true" → checkForRefresh userId io w = w.
Proof.
  intros Hclean. unfold checkForRefresh, flag in *.
  destruct (getItem_rejects io); [done|].
  by rewrite decide_False.
Qed.

Lemma checkForRefresh_dirty (w : World) :
  flag w = Some "true" →
  checkForRefresh userId reliable w
  = set_storage (<[refreshKey := "false"]> (storage w)) (fetchDonations userId w).
Proof.
  intros Hdirty. unfold checkForRefresh, flag in *; simpl.
  by rewrite decide_True.
Qed.

(** The [catch] of lines 72-74: when [getItem] is rejected the poll does
    nothing; when [setItem] is rejected the load has been started and the
    flag keeps its value. *)
Lemma checkForRefresh_rejections (w : World) :
  checkForRefresh userId {| getItem_rejects := true; setItem_rejects := false |} w
  = w
  ∧ (flag w = Some "true" →
     checkForRefresh userId
       {| getItem_rejects := false; setItem_rejects := true |} w
     = fetchDonations userId w).
Proof.
  split; [done|]. intros Hdirty. unfold checkForRefresh, flag in *; simpl.
  by rewrite decide_True.
Qed.

(** An answer reaches the cells and the list of suspended calls only. *)
Lemma deliver_environment (k : nat) (answer : Settled JsValue) (w : World) :
  storage (deliver k answer w) = storage w
  ∧ requests (deliver k answer w) = requests w.
Proof.
  unfold deliver. destruct (awaiting w !! k) as [[|donationId captured]|]; done.
Qed.

(** As long as the flag is not ["true"], polls and answers send nothing
    and leave the store alone. *)
Lemma run_clean (es : list Event) (w : World) :
  flag w ≠ Some "true" →
  requests (run userId es w) = requests w
  ∧ storage (run userId es w) = storage w.
Proof.
  revert w. induction es as [|e es IH]; intros w Hclean; [done|].
  unfold run in *; simpl.
  assert (requests (step userId e w) = requests w
          ∧ storage (step userId e w) = storage w) as [Hrequests Hstorage].
  { destruct e as [io|k answer]; simpl.
    - by rewrite checkForRefresh_clean.
    - destruct (deliver_environment k answer w); done. }
  destruct (IH (step userId e w)) as [-> ->]; [|done].
  unfold flag. by rewrite Hstorage.
Qed.

(** C5.  One poll, with the store answering as its contract says, sends
    one load request exactly when the flag is ["true"], and none
    otherwise; when it sends one, the flag is then written to ["false"]
    and the load is under way; when the flag is anything else the poll
    changes nothing, the store included. *)
Theorem checkForRefresh_loads_iff_dirty (w : World) :
  let w' := checkForRefresh userId reliable w in
  requests w'
  = requests w
    ++ (if decide (flag w = Some "true")
        then [GET ("/donations/user/" +:+ userId)] else [])
  ∧ (flag w = Some "true" ↔ length (requests w') = S (length (requests w)))
  ∧ (if decide (flag w = Some "true")
     then storage w' = <[refreshKey := "false"]> (storage w)
          ∧ flag w' = Some "false"
          ∧ awaiting w' = awaiting w ++ [AwaitGet]
          ∧ cart w' = setError "" (setIsLoading true (cart w))
     else w' = w).
Proof.
  intros w'. subst w'.
  destruct (decide (flag w = Some "true")) as [Hdirty|Hclean].
  - rewrite checkForRefresh_dirty by done. simpl.
    split; [done|]. split.
    + rewrite length_app; simpl. split; [lia | done].
    + unfold flag; simpl. by rewrite lookup_insert_eq.
  - rewrite checkForRefresh_clean by done.
    split; [by rewrite app_nil_r|]. split; [|done].
    split; [done | lia].
Qed.

(** C10.  A poll that finds the flag ["true"] leaves it ["false"] while
    the load it started is still suspended at its request.  Whatever
    answer that load then gets, a rejection and a failure response
    included, the flag stays ["false"], and no later sequence of polls
    and answers sends another request: without a new write of
    ["true"], the load is not tried again. *)
Theorem poll_resets_flag_before_answer (w : World) :
  flag w = Some "true" →
  let polled := checkForRefresh userId reliable w in
  flag polled = Some "false"
  ∧ awaiting polled = awaiting w ++ [AwaitGet]
  ∧ isLoading (cart polled) = true
  ∧ ∀ answer : Settled JsValue,
      let answered := deliver (length (awaiting w)) answer polled in
      flag answered = Some "false"
      ∧ cart answered
        = fetchDonations_resume answer (setError "" (setIsLoading true (cart w)))
      ∧ ∀ later : list Event,
          requests (run userId later answered) = requests answered
          ∧ flag (run userId later answered) = Some "false".
Proof.
  intros Hdirty polled. subst polled.
  rewrite checkForRefresh_dirty by done.
  assert (∀ w0, flag (set_storage (<[refreshKey := "false"]> (storage w)) w0)
                = Some "false") as Hreset.
  { intros w0. unfold flag; simpl. by rewrite lookup_insert_eq. }
  split; [apply Hreset|]. split; [done|]. split; [done|].
  intros answer answered.
  assert (flag answered = Some "false") as Hflag.
  { subst answered. unfold flag.
    destruct (deliver_environment (length (awaiting w)) answer
      (set_storage (<[refreshKey := "false"]> (storage w))
         (fetchDonations userId w))) as [-> _].
    apply Hreset. }
  split; [done|]. split.
  - subst answered. unfold deliver, fetchDonations, send; simpl.
    rewrite list_lookup_middle by done. done.
  - intros later.
    destruct (run_clean later answered) as [Hrequests Hstorage].
    + rewrite Hflag. discriminate.
    + split; [done|]. unfold flag in *. by rewrite Hstorage.
Qed.

End Poll.

Lemma poll_resets_flag_before_answer_witness :
  flag world_dirty = Some "true"
  ∧ flag (checkForRefresh "u1" reliable world_dirty) = Some "false"
  ∧ awaiting (checkForRefresh "u1" reliable world_dirty) = [AwaitGet]
  ∧ error
      (cart (deliver 0 Rejected (checkForRefresh "u1" reliable world_dirty)))
    = LoadFailed
  ∧ requests
      (run "u1" [Poll reliable; Poll reliable]
         (deliver 0 Rejected (checkForRefresh "u1" reliable world_dirty)))
    = [GET "/donations/user/u1"].
Proof.
  destruct (poll_resets_flag_before_answer "u1" world_dirty eq_refl)
    as (Hflag & Hawaiting & _ & Hanswer).
  destruct (Hanswer Rejected) as (_ & Hcart & Hlater).
  destruct (Hlater [Poll reliable; Poll reliable]) as [Hrequests _].
  split; [reflexivity|]. split; [exact Hflag|]. split; [exact Hawaiting|].
  split; [|exact Hrequests].
  change (length (awaiting world_dirty)) with 0%nat in Hcart.
  rewrite Hcart. reflexivity.
Defined.

(** * Further properties of the component *)

(** ** Status tables and the card *)

(** Every status string is shown as one of the four statuses, and a
    string outside the four is shown as [pending]. *)
Lemma status_shown_as (s : string) :
  ∃ st : Status,
    getStatusText s = getStatusText (status_string st)
    ∧ getStatusColor s = getStatusColor (status_string st)
    ∧ getStatusIcon s = getStatusIcon (status_string st)
    ∧ (s ∉ status_string <$> [pending; scheduled; completed; cancelled] →
       st = pending).
Proof.
  unfold getStatusText, getStatusColor, getStatusIcon.
  destruct (String.eqb_spec s "pending") as [->|Hpending];
    [exists pending; repeat split; done|].
  destruct (String.eqb_spec s "scheduled") as [->|Hscheduled];
    [exists scheduled; repeat split; try done; intros []; set_solver|].
  destruct (String.eqb_spec s "completed") as [->|Hcompleted];
    [exists completed; repeat split; try done; intros []; set_solver|].
  destruct (String.eqb_spec s "cancelled") as [->|Hcancelled];
    [exists cancelled; repeat split; try done; intros []; set_solver|].
  exists pending. repeat split; done.
Qed.

(** X1.  The label, the badge colour and the icon of a status are three
    views of one classification: two status strings get the same label
    exactly when they get the same colour, and exactly when they get the
    same icon; the four statuses of the type get four different labels;
    and every string that is none of the four is shown as [pending]. *)
Theorem status_tables_agree (s s' : string) :
  (getStatusText s = getStatusText s' ↔ getStatusColor s = getStatusColor s')
  ∧ (getStatusText s = getStatusText s' ↔ getStatusIcon s = getStatusIcon s')
  ∧ (∀ st st' : Status,
        getStatusText (status_string st) = getStatusText (status_string st') →
        st = st')
  ∧ (s ∉ status_string <$> [pending; scheduled; completed; cancelled] →
     getStatusText s = "Pending"
     ∧ getStatusColor s = getStatusColor "pending"
     ∧ getStatusIcon s = getStatusIcon "pending").
Proof.
  destruct (status_shown_as s) as (st & -> & -> & -> & Hdefault).
  destruct (status_shown_as s') as (st' & -> & -> & -> & _).
  split; [|split; [|split]].
  - destruct st, st'; split; intros H; done.
  - destruct st, st'; split; intros H; done.
  - intros [] [] H; done.
  - intros Hunknown. by rewrite (Hdefault Hunknown).
Qed.

Lemma head_concat {B} (ls : list (list B)) :
  head (concat ls) = list_find (λ l, l ≠ []) ls ≫= λ found, head found.2.
Proof.
  induction ls as [|l ls IH]; [done|].
  destruct l as [|x l]; csimpl; [|done].
  rewrite IH. by destruct (list_find _ ls) as [[i found]|].
Qed.

(** X2.  The preview of a card is the first image of the first item, in
    item order, that has an image; a card has no preview exactly when no
    item of the record has an image. *)
Theorem preview_is_first_image (isLoading : bool) (item : DonationItem) :
  previewImage (renderDonationItem isLoading item)
  = list_find (λ l, l ≠ []) (items item).*2 ≫= (λ found, head found.2)
  ∧ (previewImage (renderDonationItem isLoading item) = None
     ↔ Forall (λ i, i.2 = []) (items item)).
Proof.
  assert (previewImage (renderDonationItem isLoading item)
          = head (getAllImages item)) as ->.
  { unfold renderDonationItem; simpl.
    destruct (getAllImages item) as [|x l]; [done|].
    by rewrite bool_decide_eq_true_2 by (simpl; lia). }
  rewrite getAllImages_items. unfold concatenated_images. split.
  - apply head_concat.
  - rewrite head_None, concat_nil_Forall, Forall_fmap. done.
Qed.

(** ** The screen *)

Lemma response_ok_shape (l : list DonationItem) :
  well_formed (Fulfilled (response_ok l)) = true
  ∧ success_flag_set (Fulfilled (response_ok l)) = true
  ∧ prop (response_ok l) "donations" = JsArray l.
Proof. repeat split. Qed.

Lemma load_donations (userId : string) (answer : Settled JsValue) (w : World) :
  donations (cart (load userId answer w))
  = donations (fetchDonations_resume answer (cart w)).
Proof. rewrite load_unfold; cbn [cart]. by rewrite !fetchDonations_resume_donations. Qed.

(** X3.  Once a load is answered the spinner is gone.  The error view,
    with ['Failed to load donations'], is shown exactly when the answer
    is neither well formed nor carries a truthy [success]; in every other
    case the cart shows its records, or the empty view when there are
    none, which is also what an answer with a truthy [success] and no
    array [donations] leads to. *)
Theorem screen_after_load (userId : string) (answer : Settled JsValue)
    (w : World) :
  let s' := cart (load userId answer w) in
  screen s'
  = (if negb (well_formed answer) && negb (success_flag_set answer)
     then ErrorView LoadFailed
     else if bool_decide (length (donations s') = 0%nat) then EmptyView
     else ListView (renderDonationItem false <$> donations s'))
  ∧ screen s' ≠ LoadingView
  ∧ (well_formed answer = false → success_flag_set answer = true →
     screen s' = EmptyView).
Proof.
  intros s'. subst s'. rewrite load_unfold. simpl.
  unfold screen, fetchDonations_resume, well_formed, success_flag_set.
  destruct answer as [response|]; simpl; [|by repeat split].
  destruct (truthy response), (truthy (prop response "success")),
    (isArray (prop response "donations")); simpl;
    try (by repeat split).
  destruct (bool_decide _); by repeat split.
Qed.

(** X4.  A card is on screen only while nothing is loading and no error
    is set: the cards are the records of the cache, in order, each
    trash button is enabled and deletes the record of its card. *)
Theorem listed_cards_can_delete (s : CartState) (data : list ItemView) :
  screen s = ListView data →
  isLoading s = false
  ∧ error s = ""
  ∧ donations s ≠ []
  ∧ data = renderDonationItem false <$> donations s
  ∧ Forall (λ v, deleteDisabled v = false) data
  ∧ deleteTarget <$> data = _id <$> donations s.
Proof.
  unfold screen. destruct (isLoading s) eqn:Hloading; [done|].
  destruct (String.eqb_spec (error s) "") as [Herror|]; [|done]; simpl.
  case_bool_decide as Hempty; [done|]. intros [= <-].
  repeat split; try done.
  - intros Hnil. by rewrite Hnil in Hempty.
  - by apply Forall_fmap, Forall_true.
  - by rewrite <-list_fmap_compose.
Qed.

Lemma listed_cards_can_delete_witness :
  isLoading (cart world0) = false
  ∧ error (cart world0) = ""
  ∧ donations (cart world0) ≠ []
  ∧ renderDonationItem false <$> [record1; record2]
    = renderDonationItem false <$> donations (cart world0)
  ∧ Forall (λ v, deleteDisabled v = false)
      (renderDonationItem false <$> [record1; record2])
  ∧ deleteTarget <$> (renderDonationItem false <$> [record1; record2])
    = _id <$> donations (cart world0).
Proof.
  apply (listed_cards_can_delete (cart world0)
           (renderDonationItem false <$> [record1; record2])).
  reflexivity.
Defined.

(** ** Calls that overlap *)

Lemma deliver_resume (k : nat) (answer : Settled JsValue) (w : World) :
  deliver k answer w
  = match awaiting w !! k with
    | None => w
    | Some a =>
        {| cart := resume a answer (cart w); storage := storage w;
           awaiting := delete k (awaiting w); requests := requests w |}
    end.
Proof. unfold deliver. by destruct (awaiting w !! k) as [[|donationId captured]|]. Qed.

Section Overlap.

Variable userId : string.

(** Two loads called one after the other, no answer yet. *)
Lemma two_loads_in_flight (w : World) :
  awaiting (fetchDonations userId (fetchDonations userId w))
  = awaiting w ++ [AwaitGet; AwaitGet]
  ∧ requests (fetchDonations userId (fetchDonations userId w))
    = requests w ++ [GET ("/donations/user/" +:+ userId);
                     GET ("/donations/user/" +:+ userId)].
Proof. unfold fetchDonations, send; simpl. by rewrite <-!app_assoc. Qed.

Lemma deliver_first_of_two (answer : Settled JsValue) (w : World) :
  let w2 := fetchDonations userId (fetchDonations userId w) in
  deliver (length (awaiting w)) answer w2
  = {| cart := fetchDonations_resume answer (cart w2); storage := storage w;
       awaiting := awaiting w ++ [AwaitGet]; requests := requests w2 |}.
Proof.
  intros w2. rewrite deliver_resume.
  destruct (two_loads_in_flight w) as [Hawaiting _]. subst w2.
  rewrite Hawaiting, list_lookup_middle by done.
  by rewrite delete_middle.
Qed.

Lemma deliver_second_of_two (answer : Settled JsValue) (w : World) :
  let w2 := fetchDonations userId (fetchDonations userId w) in
  deliver (S (length (awaiting w))) answer w2
  = {| cart := fetchDonations_resume answer (cart w2); storage := storage w;
       awaiting := awaiting w ++ [AwaitGet]; requests := requests w2 |}.
Proof.
  intros w2. rewrite deliver_resume.
  destruct (two_loads_in_flight w) as [Hawaiting _]. subst w2.
  rewrite Hawaiting.
  change (awaiting w ++ [AwaitGet; AwaitGet])
    with (awaiting w ++ [AwaitGet] ++ [AwaitGet]).
  rewrite app_assoc.
  rewrite list_lookup_middle by (rewrite length_app; simpl; lia).
  replace (S (length (awaiting w))) with (length (awaiting w ++ [AwaitGet]))
    by (rewrite length_app; simpl; lia).
  by rewrite delete_middle, app_nil_r.
Qed.

Lemma deliver_last_load (answer : Settled JsValue) (s : CartState) (w w2 : World) :
  deliver (length (awaiting w)) answer
    {| cart := s; storage := storage w;
       awaiting := awaiting w ++ [AwaitGet]; requests := requests w2 |}
  = {| cart := fetchDonations_resume answer s; storage := storage w;
       awaiting := awaiting w; requests := requests w2 |}.
Proof.
  rewrite deliver_resume; simpl.
  rewrite list_lookup_middle by done.
  by rewrite delete_middle, app_nil_r.
Qed.

(** X5.  [isLoading] is one flag for all calls: of two loads in flight,
    the first answer to arrive, to either of them, takes the spinner
    away while the other load is still waiting for its answer. *)
Theorem first_answer_clears_spinner (answer : Settled JsValue) (w : World) :
  let n := length (awaiting w) in
  let w2 := fetchDonations userId (fetchDonations userId w) in
  screen (cart w2) = LoadingView
  ∧ (∀ k, k = n ∨ k = S n →
       isLoading (cart (deliver k answer w2)) = false
       ∧ screen (cart (deliver k answer w2)) ≠ LoadingView
       ∧ awaiting (deliver k answer w2) = awaiting w ++ [AwaitGet]).
Proof.
  intros n w2. split; [done|].
  intros k [-> | ->]; subst n w2;
    rewrite ?deliver_first_of_two, ?deliver_second_of_two; cbn [cart awaiting];
    (split; [by destruct answer|]); (split; [|done]);
    unfold screen; (replace (isLoading (fetchDonations_resume answer _))
      with false by (by destruct answer));
    by repeat case_match.
Qed.

(** X6.  Loads are neither queued nor dropped: when two are in flight,
    the cache ends as the answer that arrives last leaves it.  Answered
    in the order of the calls, that is the second load's answer;
    answered in the other order, the answer to the older call replaces
    the newer data. *)
Theorem overlapping_loads_last_answer_wins (a1 a2 : Settled JsValue)
    (w : World) :
  let n := length (awaiting w) in
  let w2 := fetchDonations userId (fetchDonations userId w) in
  requests w2
  = requests w ++ [GET ("/donations/user/" +:+ userId);
                   GET ("/donations/user/" +:+ userId)]
  ∧ donations (cart (deliver n a2 (deliver n a1 w2)))
    = donations (cart (load userId a2 w))
  ∧ donations (cart (deliver n a1 (deliver (S n) a2 w2)))
    = donations (cart (load userId a1 w))
  ∧ awaiting (deliver n a2 (deliver n a1 w2)) = awaiting w
  ∧ awaiting (deliver n a1 (deliver (S n) a2 w2)) = awaiting w.
Proof.
  intros n w2. subst n w2.
  split; [apply two_loads_in_flight|].
  rewrite deliver_first_of_two, deliver_second_of_two, !deliver_last_load.
  rewrite !load_donations. cbn [cart awaiting].
  by rewrite !fetchDonations_resume_donations.
Qed.

(** X7.  A load that succeeds does not clear the error that an
    overlapping load has set: when the first of two loads in flight
    fails and the second then returns a list, the list is in the cache
    and the screen is the error view. *)
Theorem failed_load_error_survives_success (failure : Settled JsValue)
    (l : list DonationItem) (w : World) :
  success_flag_set failure = false →
  let n := length (awaiting w) in
  let w2 := fetchDonations userId (fetchDonations userId w) in
  let w4 := deliver n (Fulfilled (response_ok l)) (deliver n failure w2) in
  donations (cart w4) = l
  ∧ error (cart w4) = LoadFailed
  ∧ screen (cart w4) = ErrorView LoadFailed
  ∧ awaiting w4 = awaiting w.
Proof.
  intros Hfailure n w2 w4. subst n w2 w4.
  rewrite deliver_first_of_two, deliver_last_load. cbn [cart awaiting].
  assert (error (fetchDonations_resume failure
            (cart (fetchDonations userId (fetchDonations userId w))))
          = LoadFailed) as Herror.
  { unfold fetchDonations_resume, success_flag_set in *.
    destruct failure as [response|]; [|done].
    destruct (truthy response), (truthy (prop response "success")); done. }
  assert (∀ s, fetchDonations_resume (Fulfilled (response_ok l)) s
               = setIsLoading false (setDonations l s)) as Hok by done.
  rewrite Hok. clear Hok.
  generalize dependent (fetchDonations_resume failure
    (cart (fetchDonations userId (fetchDonations userId w)))).
  intros s1 Herror. unfold screen; simpl. rewrite Herror. done.
Qed.

End Overlap.

Lemma failed_load_error_survives_success_witness :
  donations
    (cart (deliver 0 (Fulfilled (response_ok [record2]))
             (deliver 0 Rejected
                (fetchDonations "u1" (fetchDonations "u1" world0)))))
  = [record2]
  ∧ error
      (cart (deliver 0 (Fulfilled (response_ok [record2]))
               (deliver 0 Rejected
                  (fetchDonations "u1" (fetchDonations "u1" world0)))))
    = LoadFailed
  ∧ screen
      (cart (deliver 0 (Fulfilled (response_ok [record2]))
               (deliver 0 Rejected
                  (fetchDonations "u1" (fetchDonations "u1" world0)))))
    = ErrorView LoadFailed
  ∧ awaiting
      (deliver 0 (Fulfilled (response_ok [record2]))
         (deliver 0 Rejected
            (fetchDonations "u1" (fetchDonations "u1" world0))))
    = [].
Proof.
  apply (failed_load_error_survives_success "u1" Rejected [record2] world0).
  reflexivity.
Defined.

(** ** More on delete *)

(** X8.  The delete action writes back the list of the render that made
    it.  When a load is called and answered while the delete is in
    flight, the acknowledged delete replaces what that load brought by
    the older list without the deleted record. *)
Theorem delete_answer_overwrites_newer_load (userId donationId : string)
    (ack : Settled JsValue) (l' : list DonationItem) (w : World) :
  success_flag_set ack = true →
  let w1 := call (DeleteClosure donationId (donations (cart w))) w in
  let w2 := load userId (Fulfilled (response_ok l')) w1 in
  let w3 := deliver (length (awaiting w)) ack w2 in
  donations (cart w2) = l'
  ∧ donations (cart w3)
    = filter (λ donation, _id donation ≠ donationId) (donations (cart w))
  ∧ awaiting w3 = awaiting w.
Proof.
  intros Hack w1 w2 w3. subst w1 w2 w3.
  rewrite load_unfold. cbn [cart].
  split; [done|].
  rewrite deliver_resume. unfold call, send; cbn [awaiting on_cart cart].
  rewrite list_lookup_middle by done. cbn [cart awaiting resume].
  split; [by apply delete_resume_uses_captured|].
  by rewrite delete_middle, app_nil_r.
Qed.

Lemma delete_answer_overwrites_newer_load_witness :
  donations
    (cart (load "u1" (Fulfilled (response_ok [record1]))
             (call (DeleteClosure "1" (donations (cart world0))) world0)))
  = [record1]
  ∧ donations
      (cart (deliver (length (awaiting world0))
               (Fulfilled response_success_only)
               (load "u1" (Fulfilled (response_ok [record1]))
                  (call (DeleteClosure "1" (donations (cart world0))) world0))))
    = filter (λ donation, _id donation ≠ "1") (donations (cart world0))
  ∧ awaiting
      (deliver (length (awaiting world0))
         (Fulfilled response_success_only)
         (load "u1" (Fulfilled (response_ok [record1]))
            (call (DeleteClosure "1" (donations (cart world0))) world0)))
    = awaiting world0.
Proof.
  apply (delete_answer_overwrites_newer_load "u1" "1"
           (Fulfilled response_success_only) [record1] world0).
  reflexivity.
Defined.

(** X9.  A delete for an [_id] that no record of the cache has is sent
    all the same; when the server acknowledges it, the cache is the list
    it was and the alert reports success. *)
Theorem delete_of_absent_id (donationId : string) (ack : Settled JsValue)
    (w : World) :
  success_flag_set ack = true →
  donationId ∉ _id <$> donations (cart w) →
  let w' := deleteRecord donationId ack w in
  donations (cart w') = donations (cart w)
  ∧ requests w' = requests w ++ [DELETE ("/donation/" +:+ donationId)]
  ∧ alertVisible (cart w') = true
  ∧ alertTitle (cart w') = "Success".
Proof.
  intros Hack Habsent w'. subst w'.
  rewrite deleteRecord_filter by done.
  split.
  - apply filter_keeps_all, Forall_forall. intros r Hr Heq.
    apply Habsent. rewrite <-Heq. by apply list_elem_of_fmap_2.
  - rewrite deleteRecord_unfold. cbn [requests cart].
    unfold delete_resume, success_flag_set in *.
    destruct ack as [response|]; [|done]. by rewrite Hack.
Qed.

Lemma delete_of_absent_id_witness :
  donations (cart (deleteRecord "7" (Fulfilled response_success_only) world0))
  = donations (cart world0)
  ∧ requests (deleteRecord "7" (Fulfilled response_success_only) world0)
    = requests world0 ++ [DELETE ("/donation/" +:+ "7")]
  ∧ alertVisible
      (cart (deleteRecord "7" (Fulfilled response_success_only) world0))
    = true
  ∧ alertTitle
      (cart (deleteRecord "7" (Fulfilled response_success_only) world0))
    = "Success".
Proof.
  apply (delete_of_absent_id "7" (Fulfilled response_success_only) world0).
  - reflexivity.
  - compute_done.
Defined.

Lemma filter_complement_id (donationId : string) (l : list DonationItem) :
  filter (λ donation, ¬ _id donation ≠ donationId) l
  = filter (λ donation, _id donation = donationId) l.
Proof.
  apply list_filter_iff. intros r. split; [|by intros -> Hne].
  intros Hnn. by destruct (decide (_id r = donationId)).
Qed.

(** X10.  Whatever the cache holds, records sharing an [_id] included,
    an acknowledged delete leaves exactly the records whose [_id] is
    not the one given, each as often as it was there and in the order
    they had: the cache before is, up to order, what is kept together
    with the records that have the [_id]; what is kept is a sublist of
    it and holds no record with the [_id]. *)
Theorem delete_removes_every_match (donationId : string)
    (ack : Settled JsValue) (w : World) :
  success_flag_set ack = true →
  let kept := donations (cart (deleteRecord donationId ack w)) in
  let removed :=
    filter (λ donation, _id donation = donationId) (donations (cart w)) in
  kept = filter (λ donation, _id donation ≠ donationId) (donations (cart w))
  ∧ kept ++ removed ≡ₚ donations (cart w)
  ∧ (length kept + length removed = length (donations (cart w)))%nat
  ∧ kept `sublist_of` donations (cart w)
  ∧ (∀ r, r ∈ kept ↔ r ∈ donations (cart w) ∧ _id r ≠ donationId)
  ∧ (donationId ∉ _id <$> kept).
Proof.
  intros Hack kept removed. subst kept removed.
  rewrite deleteRecord_filter by done.
  assert (filter (λ donation, _id donation ≠ donationId) (donations (cart w))
          ++ filter (λ donation, _id donation = donationId) (donations (cart w))
          ≡ₚ donations (cart w)) as Hparts.
  { rewrite <-filter_complement_id. apply filter_app_complement. }
  split; [done|]. split; [done|]. split.
  { rewrite <-length_app. by rewrite Hparts. }
  split; [apply sublist_filter|]. split.
  - intros r. rewrite list_elem_of_filter. tauto.
  - intros (r & Heq & Hr)%list_elem_of_fmap.
    apply list_elem_of_filter in Hr as [Hne _]. by apply Hne.
Qed.

Lemma delete_removes_every_match_witness :
  donations
    (cart (deleteRecord "1" (Fulfilled response_success_only)
             (on_cart (setDonations [record2; record2; record1]) world0)))
  = [record2; record2]
  ∧ donations
      (cart (deleteRecord "1" (Fulfilled response_success_only)
               (on_cart (setDonations [record2; record2; record1]) world0)))
    ++ filter (λ donation, _id donation = "1")
         (donations
            (cart (on_cart (setDonations [record2; record2; record1]) world0)))
    ≡ₚ donations
         (cart (on_cart (setDonations [record2; record2; record1]) world0)).
Proof.
  destruct (delete_removes_every_match "1" (Fulfilled response_success_only)
              (on_cart (setDonations [record2; record2; record1]) world0)
              eq_refl) as (Hkept & Hparts & _).
  split; [exact Hkept | exact Hparts].
Defined.

(** X11.  Whatever the server answers to a delete, what the answer
    leaves open is an alert with the single button [OK] and no cancel
    button, titled [Success] or [Error].  Closing it returns, sends
    nothing (the one request of the delete is all that went out) and
    leaves the records alone. *)
Theorem outcome_alert_only_acknowledges (donationId : string)
    (answer : Settled JsValue) (w : World) :
  let w' := deleteRecord donationId answer w in
  visible (alertProps (cart w')) = true
  ∧ title (alertProps (cart w'))
    = (if success_flag_set answer then "Success" else "Error")
  ∧ confirmText (alertProps (cart w')) = "OK"
  ∧ showCancelButton (alertProps (cart w')) = false
  ∧ onClose w' = Returns (on_cart (setAlertVisible false) w')
  ∧ requests (world_of (onClose w'))
    = requests w ++ [DELETE ("/donation/" +:+ donationId)]
  ∧ donations (cart (world_of (onClose w'))) = donations (cart w')
  ∧ visible (alertProps (cart (world_of (onClose w')))) = false.
Proof.
  intros w'. subst w'. rewrite deleteRecord_unfold.
  unfold onClose, alertProps, delete_resume, success_flag_set.
  destruct answer as [response|]; cbn [cart]; [|by repeat split].
  destruct (truthy response && truthy (prop response "success"));
    by repeat split.
Qed.

(** ** Polls when the store fails *)

Lemma run_cons (userId : string) (e : Event) (es : list Event) (w : World) :
  run userId (e :: es) w = run userId es (step userId e w).
Proof. done. Qed.

(** X12.  When [setItem] is rejected the flag keeps the value ["true"],
    so every poll starts another load: [k] such polls send [k] requests
    and leave [k] loads in flight. *)
Theorem polls_repeat_load_while_setItem_fails (userId : string) (k : nat)
    (w : World) :
  flag w = Some "true" →
  let w' := run userId (replicate k (Poll setItem_fails)) w in
  requests w' = requests w ++ replicate k (GET ("/donations/user/" +:+ userId))
  ∧ awaiting w' = awaiting w ++ replicate k AwaitGet
  ∧ flag w' = Some "true".
Proof.
  revert w. induction k as [|k IH]; intros w Hdirty w'; subst w'.
  - simpl. by rewrite !app_nil_r.
  - cbn [replicate]. rewrite run_cons. cbn [step].
    destruct (checkForRefresh_rejections userId w) as [_ Hrejected].
    replace (checkForRefresh userId setItem_fails w)
      with (fetchDonations userId w) by (symmetry; by apply Hrejected).
    destruct (IH (fetchDonations userId w)) as (-> & -> & ->); [done|].
    unfold fetchDonations, send; simpl. by rewrite <-!app_assoc.
Qed.

Lemma polls_repeat_load_while_setItem_fails_witness :
  requests (run "u1" (replicate 3 (Poll setItem_fails)) world_dirty)
  = requests world_dirty ++ replicate 3 (GET ("/donations/user/" +:+ "u1"))
  ∧ awaiting (run "u1" (replicate 3 (Poll setItem_fails)) world_dirty)
    = awaiting world_dirty ++ replicate 3 AwaitGet
  ∧ flag (run "u1" (replicate 3 (Poll setItem_fails)) world_dirty)
    = Some "true".
Proof.
  apply (polls_repeat_load_while_setItem_fails "u1" 3 world_dirty).
  reflexivity.
Defined.

(** ** What holds along every session *)

Section Sessions.

Variable userId : string.

Lemma session_cons (i : Interaction) (steps : list Interaction) (w : World) :
  session userId (i :: steps) w = session userId steps (interact userId i w).
Proof. done. Qed.

Lemma session_snoc (steps : list Interaction) (i : Interaction) (w : World) :
  session userId (steps ++ [i]) w
  = interact userId i (session userId steps w).
Proof. unfold session. by rewrite foldl_snoc. Qed.

(** One interaction leaves the store alone or writes ["false"] to the
    flag. *)
Lemma interact_storage (i : Interaction) (w : World) :
  storage (interact userId i w) = storage w
  ∨ storage (interact userId i w) = <[refreshKey := "false"]> (storage w).
Proof.
  destruct i as [[io|k answer]| |donationId|]; simpl.
  - unfold checkForRefresh.
    destruct (getItem_rejects io); [by left|].
    case_decide; [|by left].
    destruct (setItem_rejects io); [by left | by right].
  - left. by destruct (deliver_environment k answer w).
  - by left.
  - by left.
  - left. unfold onClose. by destruct (alertCallback (cart w)) as [|[]|].
Qed.

(** X13.  The component reads and resets the flag and does nothing else
    to the store: along any session, every other key keeps its value,
    and the flag either keeps its value or is ["false"]; the component
    never writes ["true"]. *)
Theorem session_only_resets_flag (steps : list Interaction) (w : World) :
  (∀ key, key ≠ refreshKey →
     storage (session userId steps w) !! key = storage w !! key)
  ∧ (flag (session userId steps w) = flag w
     ∨ flag (session userId steps w) = Some "false").
Proof.
  assert (storage (session userId steps w) = storage w
          ∨ storage (session userId steps w)
            = <[refreshKey := "false"]> (storage w)) as Hstore.
  { induction steps as [|i steps IH] using rev_ind; [by left|].
    rewrite session_snoc.
    destruct (interact_storage i (session userId steps w)) as [->| ->];
      [done|].
    destruct IH as [->| ->]; [by right|].
    right. by rewrite insert_insert_eq. }
  unfold flag. destruct Hstore as [->| ->].
  - split; [done | by left].
  - split.
    + intros key Hkey. by rewrite lookup_insert_ne.
    + right. by rewrite lookup_insert_eq.
Qed.

(** One interaction sends at most one request: the list of this user's
    donations, or the deletion of one donation. *)
Lemma interact_requests (i : Interaction) (w : World) :
  ∃ sent,
    requests (interact userId i w) = requests w ++ sent
    ∧ (length sent ≤ 1)%nat
    ∧ Forall (λ r, r = GET ("/donations/user/" +:+ userId)
                   ∨ ∃ donationId, r = DELETE ("/donation/" +:+ donationId))
             sent.
Proof.
  assert (∀ r,
    (r = GET ("/donations/user/" +:+ userId)
     ∨ ∃ donationId, r = DELETE ("/donation/" +:+ donationId)) →
    ∀ l, ∃ sent, l ++ [r] = l ++ sent ∧ (length sent ≤ 1)%nat
      ∧ Forall (λ r, r = GET ("/donations/user/" +:+ userId)
                     ∨ ∃ donationId, r = DELETE ("/donation/" +:+ donationId))
               sent) as Hone.
  { intros r Hr l. exists [r]. repeat split; [done|]. by constructor. }
  assert (∀ l : list Request, ∃ sent, l = l ++ sent ∧ (length sent ≤ 1)%nat
      ∧ Forall (λ r, r = GET ("/donations/user/" +:+ userId)
                     ∨ ∃ donationId, r = DELETE ("/donation/" +:+ donationId))
               sent) as Hnone.
  { intros l. exists []. rewrite app_nil_r. repeat split; [simpl; lia | done]. }
  destruct i as [[io|k answer]| |donationId|]; simpl.
  - unfold checkForRefresh.
    destruct (getItem_rejects io); [apply Hnone|].
    case_decide; [|apply Hnone].
    destruct (setItem_rejects io); apply Hone; by left.
  - destruct (deliver_environment k answer w) as [_ ->]. apply Hnone.
  - apply Hone. by left.
  - apply Hone. right. by exists donationId.
  - unfold onClose.
    destruct (alertCallback (cart w)) as [|[donationId captured]|]; simpl;
      [apply Hnone | | apply Hnone].
    apply Hone. right. by exists donationId.
Qed.

(** X14.  Along any session the list of requests only grows at its end,
    by at most one request per interaction, and whatever is added is
    the list of this [userId]'s donations or the deletion of one
    donation: the cart asks for no other user's data. *)
Theorem session_requests (steps : list Interaction) (w : World) :
  ∃ sent,
    requests (session userId steps w) = requests w ++ sent
    ∧ (length sent ≤ length steps)%nat
    ∧ Forall (λ r, r = GET ("/donations/user/" +:+ userId)
                   ∨ ∃ donationId, r = DELETE ("/donation/" +:+ donationId))
             sent.
Proof.
  induction steps as [|i steps IH] using rev_ind.
  - exists []. rewrite app_nil_r. by repeat split.
  - rewrite session_snoc.
    destruct IH as (sent & Hsent & Hlength & Hall).
    destruct (interact_requests i (session userId steps w))
      as (more & -> & Hmore & Hall').
    exists (sent ++ more). rewrite Hsent, app_assoc. split; [done|]. split.
    + rewrite !length_app; simpl. lia.
    + by apply Forall_app.
Qed.

Lemma fetchDonations_resume_error (answer : Settled JsValue) (s : CartState) :
  error (fetchDonations_resume answer s) = error s
  ∨ error (fetchDonations_resume answer s) = LoadFailed.
Proof.
  unfold fetchDonations_resume. destruct answer as [response|]; [|by right].
  destruct (truthy response), (truthy (prop response "success")),
    (isArray (prop response "donations")); simpl; by (left + right).
Qed.

Lemma delete_resume_error (donationId : string) (captured : list DonationItem)
    (answer : Settled JsValue) (s : CartState) :
  error (delete_resume donationId captured answer s) = error s.
Proof.
  unfold delete_resume. destruct answer as [response|]; [|done].
  by destruct (truthy response && truthy (prop response "success")).
Qed.

Lemma interact_error (i : Interaction) (w : World) :
  error (cart (interact userId i w)) = error (cart w)
  ∨ error (cart (interact userId i w)) = ""
  ∨ error (cart (interact userId i w)) = LoadFailed.
Proof.
  destruct i as [[io|k answer]| |donationId|]; simpl.
  - unfold checkForRefresh.
    destruct (getItem_rejects io); [by left|].
    case_decide; [|by left].
    destruct (setItem_rejects io); by (right; left).
  - rewrite deliver_resume.
    destruct (awaiting w !! k) as [[|donationId captured]|]; simpl;
      [| left; apply delete_resume_error | by left].
    destruct (fetchDonations_resume_error answer (cart w)); by (left + (right; right)).
  - by right; left.
  - by left.
  - left. unfold onClose. by destruct (alertCallback (cart w)) as [|[]|].
Qed.

(** X15.  The only text that ever reaches [error] is
    ['Failed to load donations']: starting with [error] empty or that
    text, it is one of the two after any session, so the error view
    never shows anything else, a failed delete included. *)
Theorem session_error_text (steps : list Interaction) (w : World) :
  error (cart w) = "" ∨ error (cart w) = LoadFailed →
  (error (cart (session userId steps w)) = ""
   ∨ error (cart (session userId steps w)) = LoadFailed)
  ∧ ∀ text, screen (cart (session userId steps w)) = ErrorView text →
            text = LoadFailed.
Proof.
  intros Hstart.
  assert (error (cart (session userId steps w)) = ""
          ∨ error (cart (session userId steps w)) = LoadFailed) as Herror.
  { induction steps as [|i steps IH] using rev_ind; [done|].
    rewrite session_snoc.
    destruct (interact_error i (session userId steps w)) as [->|[->| ->]];
      [done | by left | by right]. }
  split; [done|]. intros text. unfold screen.
  destruct (isLoading _); [done|].
  destruct Herror as [->| ->]; simpl; [|by intros [= <-]].
  by case_bool_decide.
Qed.

(** X16.  The records of the cache change only when an answer arrives:
    polls, presses on Retry or on a trash button and closing the alert
    leave [donations] as they are, so what is shown stays until the
    server has spoken. *)
Theorem session_without_answer_keeps_records (steps : list Interaction)
    (w : World) :
  Forall (λ i, is_answer i = false) steps →
  donations (cart (session userId steps w)) = donations (cart w).
Proof.
  induction steps as [|i steps IH] using rev_ind; [done|].
  intros [Hsteps Hi%Forall_inv]%Forall_app.
  rewrite session_snoc, <-IH by done.
  generalize (session userId steps w). intros w0.
  destruct i as [[io|k answer]| |donationId|]; [| by simpl in Hi | | |].
  - simpl. unfold checkForRefresh.
    destruct (getItem_rejects io); [done|]. case_decide; [|done].
    by destruct (setItem_rejects io).
  - reflexivity.
  - reflexivity.
  - simpl. unfold onClose.
    by destruct (alertCallback (cart w0)) as [|[]|].
Qed.

Lemma interact_about_loads (i : Interaction) (w : World) :
  about_loads i = true →
  Forall (λ a, a = AwaitGet) (awaiting w) →
  Forall (λ a, a = AwaitGet) (awaiting (interact userId i w))
  ∧ alertProps (cart (interact userId i w)) = alertProps (cart w)
  ∧ alertCallback (cart (interact userId i w)) = alertCallback (cart w).
Proof.
  intros Hi Hloads.
  assert (Forall (λ a, a = AwaitGet) (awaiting (fetchDonations userId w))
          ∧ alertProps (cart (fetchDonations userId w)) = alertProps (cart w)
          ∧ alertCallback (cart (fetchDonations userId w))
            = alertCallback (cart w)) as Hfetch.
  { split; [|done]. unfold fetchDonations, send; simpl.
    apply Forall_app. split; [done | by constructor]. }
  destruct i as [[io|k answer]| |donationId|]; simpl in *; try done.
  - unfold checkForRefresh.
    destruct (getItem_rejects io); [done|]. case_decide; [|done].
    by destruct (setItem_rejects io).
  - rewrite deliver_resume.
    destruct (awaiting w !! k) as [a|] eqn:Hk; [|done].
    assert (a = AwaitGet) as ->.
    { by eapply (Forall_lookup_1 _ _ _ _ Hloads). }
    cbn [awaiting cart resume]. split.
    + by apply Forall_delete.
    + unfold fetchDonations_resume. destruct answer as [response|]; [|done].
      by destruct (truthy response), (truthy (prop response "success")),
        (isArray (prop response "donations")).
Qed.

(** X17.  Loads do not touch the alert: while no delete is in flight,
    polls, answers to loads and presses on Retry leave the alert as it
    is, open or closed, with its title, message, buttons and stored
    callback. *)
Theorem loads_leave_alert_alone (steps : list Interaction) (w : World) :
  Forall (λ a, a = AwaitGet) (awaiting w) →
  Forall (λ i, about_loads i = true) steps →
  alertProps (cart (session userId steps w)) = alertProps (cart w)
  ∧ alertCallback (cart (session userId steps w)) = alertCallback (cart w).
Proof.
  intros Hloads Hsteps.
  assert (Forall (λ a, a = AwaitGet) (awaiting (session userId steps w))
          ∧ alertProps (cart (session userId steps w)) = alertProps (cart w)
          ∧ alertCallback (cart (session userId steps w))
            = alertCallback (cart w)) as (_ & Hprops & Hcallback);
    [|done].
  induction steps as [|i steps IH] using rev_ind; [done|].
  apply Forall_app in Hsteps as [Hsteps Hi%Forall_inv].
  destruct (IH Hsteps) as (Hloads' & <- & <-).
  rewrite session_snoc. by apply interact_about_loads.
Qed.

(** One interaction keeps a call in flight whenever the spinner is on. *)
Lemma interact_spinner (i : Interaction) (w : World) :
  (isLoading (cart w) = true → awaiting w ≠ []) →
  isLoading (cart (interact userId i w)) = true →
  awaiting (interact userId i w) ≠ [].
Proof.
  intros Hw.
  assert (∀ (l : list Awaiting) a, l ++ [a] ≠ []) as Hsnoc.
  { intros l a Hnil. by apply app_eq_nil in Hnil as [_ ?]. }
  destruct i as [[io|k answer]| |donationId|]; simpl.
  - unfold checkForRefresh.
    destruct (getItem_rejects io); [done|]. case_decide; [|done].
    destruct (setItem_rejects io); intros _; apply Hsnoc.
  - rewrite deliver_resume.
    destruct (awaiting w !! k) as [a|]; [|done]. cbn [cart].
    destruct a as [|donationId captured]; simpl.
    + unfold fetchDonations_resume. by destruct answer.
    + unfold delete_resume. by destruct answer.
  - intros _. apply Hsnoc.
  - intros _. apply Hsnoc.
  - unfold onClose.
    destruct (alertCallback (cart w)) as [|[donationId captured]|]; simpl;
      [done | intros _; apply Hsnoc | done].
Qed.

(** X18.  The spinner never outlives the calls: if at the start a call
    is in flight whenever [isLoading] is set, then after any session a
    spinner on screen means that a call is still waiting for its answer,
    and that answer will take the spinner away. *)
Theorem spinner_means_call_in_flight (steps : list Interaction) (w : World) :
  (isLoading (cart w) = true → awaiting w ≠ []) →
  let w' := session userId steps w in
  (screen (cart w') = LoadingView → awaiting w' ≠ [])
  ∧ ∀ k answer, (k < length (awaiting w'))%nat →
      screen (cart (deliver k answer w')) ≠ LoadingView.
Proof.
  intros Hw w'.
  assert (isLoading (cart w') = true → awaiting w' ≠ []) as Hw'.
  { subst w'. induction steps as [|i steps IH] using rev_ind; [done|].
    rewrite session_snoc. by apply interact_spinner. }
  split.
  - unfold screen. destruct (isLoading (cart w')); [auto|].
    by repeat case_match.
  - intros k answer [a Hk]%lookup_lt_is_Some_2.
    rewrite deliver_resume, Hk. cbn [cart].
    assert (isLoading (resume a answer (cart w')) = false) as Hcleared.
    { destruct a as [|donationId captured]; simpl.
      - unfold fetchDonations_resume. by destruct answer.
      - unfold delete_resume. by destruct answer. }
    unfold screen. rewrite Hcleared. by repeat case_match.
Qed.

End Sessions.

Lemma session_error_text_witness :
  (error
     (cart (session "u1"
              [PressRetry; Environment (Answer 0 Rejected); PressDelete "1"]
              world0)) = ""
   ∨ error
       (cart (session "u1"
                [PressRetry; Environment (Answer 0 Rejected); PressDelete "1"]
                world0)) = LoadFailed)
  ∧ ∀ text,
      screen
        (cart (session "u1"
                 [PressRetry; Environment (Answer 0 Rejected); PressDelete "1"]
                 world0)) = ErrorView text →
      text = LoadFailed.
Proof.
  apply (session_error_text "u1"
           [PressRetry; Environment (Answer 0 Rejected); PressDelete "1"]
           world0).
  left. reflexivity.
Defined.

Lemma session_without_answer_keeps_records_witness :
  donations
    (cart (session "u1"
             [Environment (Poll reliable); PressDelete "1"; CloseAlert; PressRetry]
             world_dirty))
  = donations (cart world_dirty).
Proof.
  apply (session_without_answer_keeps_records "u1"
           [Environment (Poll reliable); PressDelete "1"; CloseAlert; PressRetry]
           world_dirty).
  repeat constructor.
Defined.

Lemma loads_leave_alert_alone_witness :
  alertProps
    (cart (session "u1"
             [Environment (Poll reliable); Environment (Answer 0 Rejected);
              PressRetry]
             (set_storage (storage world_dirty) world_confirming)))
  = alertProps (cart (set_storage (storage world_dirty) world_confirming))
  ∧ alertCallback
      (cart (session "u1"
               [Environment (Poll reliable); Environment (Answer 0 Rejected);
                PressRetry]
               (set_storage (storage world_dirty) world_confirming)))
    = alertCallback (cart (set_storage (storage world_dirty) world_confirming)).
Proof.
  apply (loads_leave_alert_alone "u1"
           [Environment (Poll reliable); Environment (Answer 0 Rejected);
            PressRetry]
           (set_storage (storage world_dirty) world_confirming)).
  - constructor.
  - repeat constructor.
Defined.

Lemma spinner_means_call_in_flight_witness :
  (screen (cart (session "u1" [PressDelete "1"; PressRetry] world0))
   = LoadingView →
   awaiting (session "u1" [PressDelete "1"; PressRetry] world0) ≠ [])
  ∧ ∀ k answer,
      (k < length (awaiting (session "u1" [PressDelete "1"; PressRetry] world0)))%nat →
      screen
        (cart (deliver k answer
                 (session "u1" [PressDelete "1"; PressRetry] world0)))
      ≠ LoadingView.
Proof.
  apply (spinner_means_call_in_flight "u1" [PressDelete "1"; PressRetry] world0).
  intros Hloading. discriminate Hloading.
Defined.

(** ** Mounting *)

Lemma answers_without_call (userId : string)
    (answers : list (nat * Settled JsValue)) (w : World) :
  awaiting w = [] →
  run userId ((λ a, Answer a.1 a.2) <$> answers) w = w.
Proof.
  intros Hnone. induction answers as [|[k answer] answers IH]; [done|].
  rewrite fmap_cons, run_cons. cbn [step fst snd].
  rewrite deliver_resume, Hnone. done.
Qed.

(** X19.  The first effect loads only for a user.  With a non-empty
    [userId] it sends the one request for that user's donations and
    starts the 500 ms poll, and the first answer ends the initial
    spinner.  With an empty [userId] it sends nothing and starts no
    poll: the cart shows the spinner it starts with, nothing is in
    flight, and no answer that arrives changes anything. *)
Theorem mount_loads_for_a_user (userId : string) (store : gmap string string) :
  let w0 := fresh store in
  screen (cart w0) = LoadingView
  ∧ (if String.eqb userId "" then
       mount userId w0 = (w0, None)
       ∧ awaiting w0 = []
       ∧ ∀ answers : list (nat * Settled JsValue),
           run userId ((λ a, Answer a.1 a.2) <$> answers) w0 = w0
     else
       mount userId w0 = (fetchDonations userId w0, Some 500)
       ∧ requests (mount userId w0).1 = [GET ("/donations/user/" +:+ userId)]
       ∧ awaiting (mount userId w0).1 = [AwaitGet]
       ∧ screen (cart (mount userId w0).1) = LoadingView
       ∧ ∀ answer,
           screen (cart (deliver 0 answer (mount userId w0).1)) ≠ LoadingView).
Proof.
  intros w0. split; [done|].
  unfold mount. destruct (String.eqb userId ""); simpl.
  - split; [done|]. split; [done|].
    intros answers. by apply answers_without_call.
  - repeat split.
    intros answer. unfold screen.
    replace (isLoading _) with false by (by destruct answer).
    by repeat case_match.
Qed.

(** ** The trash button *)

(** X20.  A press on a trash button opens the alert with the buttons
    [Yes, Delete] and [Cancel], and by then the delete request is out:
    the setter of line 202 has called the action it was given.  When the
    server acknowledges, the record leaves the cache, although the alert
    has never been resolved. *)
Theorem press_deletes_before_confirmation (donationId : string)
    (ack : Settled JsValue) (w : World) :
  success_flag_set ack = true →
  let pressed := handleDeleteDonation donationId w in
  let answered := deliver (length (awaiting w)) ack pressed in
  requests pressed = requests w ++ [DELETE ("/donation/" +:+ donationId)]
  ∧ visible (alertProps (cart pressed)) = true
  ∧ title (alertProps (cart pressed)) = "Confirm Deletion"
  ∧ confirmText (alertProps (cart pressed)) = "Yes, Delete"
  ∧ showCancelButton (alertProps (cart pressed)) = true
  ∧ donations (cart answered)
    = filter (λ donation, _id donation ≠ donationId) (donations (cart w))
  ∧ title (alertProps (cart answered)) = "Success".
Proof.
  intros Hack pressed answered. subst pressed answered.
  do 5 (split; [done|]).
  rewrite deliver_resume.
  unfold handleDeleteDonation, setAlertCallback, call, send;
    cbn [awaiting on_cart cart].
  rewrite list_lookup_middle by done. cbn [cart resume].
  split; [by apply delete_resume_uses_captured|].
  unfold delete_resume, success_flag_set in *.
  destruct ack as [response|]; [|done]. by rewrite Hack.
Qed.

Lemma press_deletes_before_confirmation_witness :
  requests (handleDeleteDonation "1" world0)
  = requests world0 ++ [DELETE ("/donation/" +:+ "1")]
  ∧ visible (alertProps (cart (handleDeleteDonation "1" world0))) = true
  ∧ title (alertProps (cart (handleDeleteDonation "1" world0)))
    = "Confirm Deletion"
  ∧ confirmText (alertProps (cart (handleDeleteDonation "1" world0)))
    = "Yes, Delete"
  ∧ showCancelButton (alertProps (cart (handleDeleteDonation "1" world0)))
    = true
  ∧ donations
      (cart (deliver (length (awaiting world0))
               (Fulfilled response_success_only)
               (handleDeleteDonation "1" world0)))
    = filter (λ donation, _id donation ≠ "1") (donations (cart world0))
  ∧ title
      (alertProps
         (cart (deliver (length (awaiting world0))
                  (Fulfilled response_success_only)
                  (handleDeleteDonation "1" world0))))
    = "Success".
Proof.
  apply (press_deletes_before_confirmation "1"
           (Fulfilled response_success_only) world0).
  reflexivity.
Defined.
